(** * Tap: unified down/move/up input over touch, mouse and pointer events

    Shallow embedding of [packages/threeGraphics/src/tap/index.ts] (class
    [Tap]) together with the small part of the browser it talks to: the
    listener table of the target element, the document's pointer-lock
    state and its [pointerlockchange] listeners, and the promises handed
    out by [pointerLock.request()] / [pointerLock.exit()].

    Conventions.
    - Methods of the class are computations in the state monad [M] over
      [World]; the class fields live in the record [Tap] ([this]).
    - Coordinates are JavaScript numbers or [undefined]; numbers are
      modelled as integers ([Z]).  No arithmetic is ever done on them,
      only copying, truthiness and equality tests.
    - A call of a user callback is recorded in the [trace].  A user
      callback may call [pause()] and [resume()] on the instance
      ([reentrant]); other calls back into the instance from inside a
      callback are not modelled.
    - An exception thrown by a subscriber ends the publication it was
      called from; the [TypeError] is recorded in the [trace].
    - Member access after [destroy()] is undefined behaviour in the
      source and is not modelled. *)

From Stdlib Require Import ZArith List String Bool Lia.
Import ListNotations.

Local Open Scope string_scope.
Local Open Scope bool_scope.
Local Open Scope list_scope.

(* ------------------------------------------------------------------ *)
(** ** JavaScript values found in coordinate fields *)

Inductive JsVal : Type :=
| undefined
| num (z : Z).

(** [if (v)] : [undefined] and [0] are falsy, every other number truthy. *)
Definition truthy (v : JsVal) : bool :=
  match v with
  | undefined => false
  | num z => negb (z =? 0)%Z
  end.

(** [a === b] *)
Definition strict_eq (a b : JsVal) : bool :=
  match a, b with
  | undefined, undefined => true
  | num p, num q => (p =? q)%Z
  | _, _ => false
  end.

(** [a == b]; no coercion applies between [undefined] and a number. *)
Definition loose_eq (a b : JsVal) : bool :=
  match a, b with
  | undefined, undefined => true
  | num p, num q => (p =? q)%Z
  | undefined, num _ => false
  | num _, undefined => false
  end.

Record Position : Type := { x : JsVal; y : JsVal }.

Record Touch : Type := { pageX : Z; pageY : Z }.

(** The fields of a DOM event that the class reads.  [touches] is
    [None] when the property is absent (mouse and pointer events). *)
Record DomEvent : Type := {
  type : string;
  touches : option (list Touch);
  clientX : JsVal;
  clientY : JsVal;
  movementX : JsVal;
  movementY : JsVal
}.

(** Payload published with [down], [move] and [up]. *)
Record TapEvent : Type := {
  position : Position;
  event : DomEvent;
  dragging : option bool
}.

(* ------------------------------------------------------------------ *)
(** ** Input families and the event matrix *)

Module EventTypes.
Inductive t : Type := touch | mouse | pointer.

Definition eqb (a b : t) : bool :=
  match a, b with
  | touch, touch | mouse, mouse | pointer, pointer => true
  | _, _ => false
  end.
End EventTypes.

(** An object [{ touch, mouse, pointer }] of booleans ([active],
    [registered]). *)
Record Flags : Type := { touch : bool; mouse : bool; pointer : bool }.

(** [flags[key]] *)
Definition get_flag (flags : Flags) (key : EventTypes.t) : bool :=
  match key with
  | EventTypes.touch => touch flags
  | EventTypes.mouse => mouse flags
  | EventTypes.pointer => pointer flags
  end.

(** [flags[key] = b] *)
Definition set_flag (key : EventTypes.t) (b : bool) (flags : Flags) : Flags :=
  match key with
  | EventTypes.touch =>
      {| touch := b; mouse := mouse flags; pointer := pointer flags |}
  | EventTypes.mouse =>
      {| touch := touch flags; mouse := b; pointer := pointer flags |}
  | EventTypes.pointer =>
      {| touch := touch flags; mouse := mouse flags; pointer := b |}
  end.

Record InputEvents : Type := { down : string; move : string; up : string }.

Record Input : Type := {
  name : EventTypes.t;
  test : bool;
  enabled : bool;
  events : InputEvents
}.

(** Modelled from the spec: [eventMatrix.ts] is not among the sources.
    The DOM event name triple of each family (touch:
    touchstart/touchmove/touchend; mouse: mousedown/mousemove/mouseup;
    pointer: pointerdown/pointermove/pointerup). *)
Definition family_events (k : EventTypes.t) : InputEvents :=
  match k with
  | EventTypes.touch =>
      {| down := "touchstart"; move := "touchmove"; up := "touchend" |}
  | EventTypes.mouse =>
      {| down := "mousedown"; move := "mousemove"; up := "mouseup" |}
  | EventTypes.pointer =>
      {| down := "pointerdown"; move := "pointermove"; up := "pointerup" |}
  end.

(** Modelled from the spec: [eventMatrix.ts] is not among the sources.
    One entry per input family with its DOM event name triple, a
    "supported in this environment" flag ([test], feature-detected at
    run time) and an "enabled by configuration" flag.  Both flags are
    left as parameters. *)
Definition eventMatrix (tests enableds : Flags) : list Input :=
  [ {| name := EventTypes.touch;
       test := touch tests; enabled := touch enableds;
       events := family_events EventTypes.touch |};
    {| name := EventTypes.mouse;
       test := mouse tests; enabled := mouse enableds;
       events := family_events EventTypes.mouse |};
    {| name := EventTypes.pointer;
       test := pointer tests; enabled := pointer enableds;
       events := family_events EventTypes.pointer |} ].

(* ------------------------------------------------------------------ *)
(** ** Subscribers *)

(** A call a user callback makes on the instance while it runs. *)
Inductive Reentry : Type :=
| call_pause      (* tap.pause() *)
| call_resume.    (* tap.resume() *)

(** What a subscriber hands to [on.*] / [once.*]: a user function that
    leaves the instance alone, the arrow function of
    [pointerLock.request()],
    [() => { this.domElement?.requestPointerLock() }], or a user
    function that makes the given calls on the instance. *)
Inductive Callback : Type :=
| user (id : nat)
| requestLock
| reentrant (id : nat) (calls : list Reentry).

(** The two arrow functions the class registers with its emitter. *)
Inductive Closure : Type :=
| on_closure (callback : Callback)     (* data => { if (!this._isPaused) callback(data) } *)
| once_closure (callback : Callback).  (* data => { callback(data) } *)

Record Listener : Type := {
  l_event : string;
  l_once : bool;
  l_fn : Closure
}.

(** The bound methods installed on the target element. *)
Inductive Handler : Type := onDown | onMove | onUp.

Definition Handler_eqb (a b : Handler) : bool :=
  match a, b with
  | onDown, onDown | onMove, onMove | onUp, onUp => true
  | _, _ => false
  end.

Inductive Target : Type :=
| element (id : nat)
| window.

(* ------------------------------------------------------------------ *)
(** ** State *)

(** Fields of a [Tap] instance. *)
Record Tap : Type := {
  _events : list Listener;
  domElement : Target;
  _isDown : bool;
  _isPaused : bool;
  active : Flags;
  registered : Flags;
  _currentPosition : Position;
  _lastPosition : Position
}.

(** Things the instance does to the outside, in order. *)
Inductive Output : Type :=
| Emitted (key : string) (data : TapEvent)   (* this._events.emit(key, data) *)
| Called (from : Closure) (data : TapEvent)  (* callback(data) *)
| RequestPointerLock (el : Target)           (* el.requestPointerLock() *)
| ExitPointerLock                            (* document.exitPointerLock() *)
| Resolved (promise : nat)                   (* resolve(e) *)
| TypeError.                                 (* uncaught in a listener *)

(** A [pointerlockchange] listener on [document], registered with
    [{ once: true }]: [e => { resolve(e) }] for the given promise. *)
Inductive DocListener : Type :=
| resolve (promise : nat).

Record World : Type := {
  this : Tap;
  el_listeners : list (string * Handler);
  doc_listeners : list DocListener;
  pointerLockElement : bool;       (* document.pointerLockElement is not null *)
  settled : list nat;
  next_promise : nat;
  trace : list Output
}.

(** *** Field updates *)

Definition set_events (v : list Listener) (t : Tap) : Tap :=
  {| _events := v; domElement := domElement t; _isDown := _isDown t;
     _isPaused := _isPaused t; active := active t; registered := registered t;
     _currentPosition := _currentPosition t; _lastPosition := _lastPosition t |}.

Definition set_domElement (v : Target) (t : Tap) : Tap :=
  {| _events := _events t; domElement := v; _isDown := _isDown t;
     _isPaused := _isPaused t; active := active t; registered := registered t;
     _currentPosition := _currentPosition t; _lastPosition := _lastPosition t |}.

Definition set_isDown (v : bool) (t : Tap) : Tap :=
  {| _events := _events t; domElement := domElement t; _isDown := v;
     _isPaused := _isPaused t; active := active t; registered := registered t;
     _currentPosition := _currentPosition t; _lastPosition := _lastPosition t |}.

Definition set_isPaused (v : bool) (t : Tap) : Tap :=
  {| _events := _events t; domElement := domElement t; _isDown := _isDown t;
     _isPaused := v; active := active t; registered := registered t;
     _currentPosition := _currentPosition t; _lastPosition := _lastPosition t |}.

Definition set_active (v : Flags) (t : Tap) : Tap :=
  {| _events := _events t; domElement := domElement t; _isDown := _isDown t;
     _isPaused := _isPaused t; active := v; registered := registered t;
     _currentPosition := _currentPosition t; _lastPosition := _lastPosition t |}.

Definition set_registered (v : Flags) (t : Tap) : Tap :=
  {| _events := _events t; domElement := domElement t; _isDown := _isDown t;
     _isPaused := _isPaused t; active := active t; registered := v;
     _currentPosition := _currentPosition t; _lastPosition := _lastPosition t |}.

Definition set_currentPosition (v : Position) (t : Tap) : Tap :=
  {| _events := _events t; domElement := domElement t; _isDown := _isDown t;
     _isPaused := _isPaused t; active := active t; registered := registered t;
     _currentPosition := v; _lastPosition := _lastPosition t |}.

Definition set_lastPosition (v : Position) (t : Tap) : Tap :=
  {| _events := _events t; domElement := domElement t; _isDown := _isDown t;
     _isPaused := _isPaused t; active := active t; registered := registered t;
     _currentPosition := _currentPosition t; _lastPosition := v |}.

Definition with_this (f : Tap -> Tap) (w : World) : World :=
  {| this := f (this w); el_listeners := el_listeners w;
     doc_listeners := doc_listeners w; pointerLockElement := pointerLockElement w;
     settled := settled w; next_promise := next_promise w; trace := trace w |}.

Definition with_el_listeners (f : list (string * Handler) -> list (string * Handler))
    (w : World) : World :=
  {| this := this w; el_listeners := f (el_listeners w);
     doc_listeners := doc_listeners w; pointerLockElement := pointerLockElement w;
     settled := settled w; next_promise := next_promise w; trace := trace w |}.

Definition with_doc_listeners (f : list DocListener -> list DocListener)
    (w : World) : World :=
  {| this := this w; el_listeners := el_listeners w;
     doc_listeners := f (doc_listeners w); pointerLockElement := pointerLockElement w;
     settled := settled w; next_promise := next_promise w; trace := trace w |}.

Definition with_pointerLockElement (b : bool) (w : World) : World :=
  {| this := this w; el_listeners := el_listeners w;
     doc_listeners := doc_listeners w; pointerLockElement := b;
     settled := settled w; next_promise := next_promise w; trace := trace w |}.

Definition with_settled (f : list nat -> list nat) (w : World) : World :=
  {| this := this w; el_listeners := el_listeners w;
     doc_listeners := doc_listeners w; pointerLockElement := pointerLockElement w;
     settled := f (settled w); next_promise := next_promise w; trace := trace w |}.

Definition with_next_promise (n : nat) (w : World) : World :=
  {| this := this w; el_listeners := el_listeners w;
     doc_listeners := doc_listeners w; pointerLockElement := pointerLockElement w;
     settled := settled w; next_promise := n; trace := trace w |}.

Definition with_trace (f : list Output -> list Output) (w : World) : World :=
  {| this := this w; el_listeners := el_listeners w;
     doc_listeners := doc_listeners w; pointerLockElement := pointerLockElement w;
     settled := settled w; next_promise := next_promise w; trace := f (trace w) |}.

(* ------------------------------------------------------------------ *)
(** ** The state monad *)

Definition M (A : Type) : Type := World -> A * World.

Definition ret {A : Type} (a : A) : M A := fun w => (a, w).

Definition bind {A B : Type} (c : M A) (k : A -> M B) : M B :=
  fun w => k (fst (c w)) (snd (c w)).

Declare Scope tap_scope.
Delimit Scope tap_scope with tap.
Notation "v <- c ;; k" := (bind c (fun v => k))
  (at level 61, c at next level, right associativity) : tap_scope.
Notation "c ;; k" := (bind c (fun _ => k))
  (at level 61, right associativity) : tap_scope.
Local Open Scope tap_scope.

Definition get_this : M Tap := fun w => (this w, w).
Definition update_this (f : Tap -> Tap) : M unit := fun w => (tt, with_this f w).
Definition log (o : Output) : M unit :=
  fun w => (tt, with_trace (fun tr => tr ++ [o]) w).

(** [l.forEach(body)] *)
Fixpoint forEach {A : Type} (l : list A) (body : A -> M unit) : M unit :=
  match l with
  | [] => ret tt
  | a :: rest => body a ;; forEach rest body
  end.

(** Final state of a computation. *)
Definition exec {A : Type} (c : M A) (w : World) : World := snd (c w).

(* ------------------------------------------------------------------ *)
(** ** The emitter ([Events] from the package [@yandeu/events])

    The emitter is an external package and not among the sources; the
    methods the class calls are modelled after the "internal
    publish/subscribe mechanism" of the spec. *)

Definition Reentry_eqb (a b : Reentry) : bool :=
  match a, b with
  | call_pause, call_pause | call_resume, call_resume => true
  | _, _ => false
  end.

Fixpoint Reentries_eqb (a b : list Reentry) : bool :=
  match a, b with
  | [], [] => true
  | r :: a', r' :: b' => Reentry_eqb r r' && Reentries_eqb a' b'
  | _, _ => false
  end.

Definition Callback_eqb (a b : Callback) : bool :=
  match a, b with
  | user i, user j => Nat.eqb i j
  | requestLock, requestLock => true
  | reentrant i ca, reentrant j cb => Nat.eqb i j && Reentries_eqb ca cb
  | _, _ => false
  end.

Definition Closure_eqb (a b : Closure) : bool :=
  match a, b with
  | on_closure c, on_closure d => Callback_eqb c d
  | once_closure c, once_closure d => Callback_eqb c d
  | _, _ => false
  end.

Definition Listener_eqb (a b : Listener) : bool :=
  (l_event a =? l_event b) && Bool.eqb (l_once a) (l_once b)
  && Closure_eqb (l_fn a) (l_fn b).

(** Modelled from the spec: the subscribers without the first one equal
    to [l]. *)
Fixpoint remove_first (l : Listener) (ls : list Listener) : list Listener :=
  match ls with
  | [] => []
  | l' :: rest => if Listener_eqb l l' then rest else l' :: remove_first l rest
  end.

(** Modelled from the spec: [Events.on], a persistent subscription;
    subscribers are kept in subscription order. *)
Definition Events_on (key : string) (fn : Closure) : M unit :=
  update_this (fun t =>
    set_events (_events t ++ [ {| l_event := key; l_once := false; l_fn := fn |} ]) t).

(** Modelled from the spec: [Events.once], a subscription that "fires
    exactly once". *)
Definition Events_once (key : string) (fn : Closure) : M unit :=
  update_this (fun t =>
    set_events (_events t ++ [ {| l_event := key; l_once := true; l_fn := fn |} ]) t).

(** Modelled from the spec: a [once] subscriber is taken out of the
    subscriber list when its turn to be called comes. *)
Definition Events_removeListener (l : Listener) : M unit :=
  update_this (fun t => set_events (remove_first l (_events t)) t).

(** [tap.pause()] / [tap.resume()] *)
Definition pause : M unit := update_this (set_isPaused true).
Definition resume : M unit := update_this (set_isPaused false).

Definition reenter (r : Reentry) : M unit :=
  match r with
  | call_pause => pause
  | call_resume => resume
  end.

(** [callback(data)] for the callback a closure wraps.  The result
    tells whether the call returned; [false] stands for an exception.
    [this.domElement?.requestPointerLock()] guards against a missing
    target only: on [window], which has no such method, the call
    throws a [TypeError]. *)
Definition call_callback (from : Closure) (callback : Callback) (data : TapEvent)
    : M bool :=
  match callback with
  | user _ => log (Called from data) ;; ret true
  | requestLock =>
      log (Called from data) ;;
      t <- get_this ;;
      match domElement t with
      | element _ => log (RequestPointerLock (domElement t)) ;; ret true
      | window => log TypeError ;; ret false
      end
  | reentrant _ calls =>
      log (Called from data) ;;
      forEach calls reenter ;;
      ret true
  end.

(** Running one of the two arrow functions. *)
Definition call_closure (fn : Closure) (data : TapEvent) : M bool :=
  match fn with
  | on_closure callback =>
      t <- get_this ;;
      if negb (_isPaused t) then call_callback fn callback data else ret true
  | once_closure callback =>
      call_callback fn callback data
  end.

(** Modelled from the spec: the loop of [Events.emit], which calls the
    subscribers in turn; an exception ends the loop. *)
Fixpoint emit_each (subscribed : list Listener) (data : TapEvent) : M unit :=
  match subscribed with
  | [] => ret tt
  | l :: rest =>
      (if l_once l then Events_removeListener l else ret tt) ;;
      returned <- call_closure (l_fn l) data ;;
      if returned then emit_each rest data else ret tt
  end.

(** Modelled from the spec: [Events.emit] publishes [data] to the
    functions subscribed to [key] when it starts, in subscription
    order.  An exception thrown by a subscriber leaves [emit], and the
    handler that called it, at once. *)
Definition Events_emit (key : string) (data : TapEvent) : M unit :=
  log (Emitted key data) ;;
  t <- get_this ;;
  emit_each (filter (fun l => l_event l =? key) (_events t)) data.

(* ------------------------------------------------------------------ *)
(** ** Browser primitives *)

Definition listener_eqb (a b : string * Handler) : bool :=
  (fst a =? fst b) && Handler_eqb (snd a) (snd b).

(** [el.addEventListener(type, handler, false)]: a listener already in
    the table is not added again. *)
Definition addEventListener (ty : string) (h : Handler) : M unit :=
  fun w =>
    (tt, with_el_listeners
           (fun ls => if existsb (listener_eqb (ty, h)) ls then ls else ls ++ [(ty, h)]) w).

(** [el.removeEventListener(type, handler, false)] *)
Definition removeEventListener (ty : string) (h : Handler) : M unit :=
  fun w =>
    (tt, with_el_listeners (filter (fun l => negb (listener_eqb (ty, h) l))) w).

(** [document.addEventListener('pointerlockchange', l, { once: true })] *)
Definition document_addEventListener (l : DocListener) : M unit :=
  fun w => (tt, with_doc_listeners (fun ls => ls ++ [l]) w).

(** [!!document.pointerLockElement] *)
Definition isLocked : M bool := fun w => (pointerLockElement w, w).

(** [new Promise(...)]: the promise gets a fresh identity and starts
    pending. *)
Definition new_Promise : M nat :=
  fun w => (next_promise w, with_next_promise (S (next_promise w)) w).

(** Running a document listener: [resolve(e)] settles a pending promise
    and does nothing to a settled one. *)
Definition call_doc_listener (l : DocListener) : M unit :=
  match l with
  | resolve p =>
      log (Resolved p) ;;
      fun w => (tt, with_settled (fun s => if existsb (Nat.eqb p) s then s else p :: s) w)
  end.

(* ------------------------------------------------------------------ *)
(** ** Methods of [Tap] *)

(** [set _position(position)] *)
Definition set__position (position : Position) (t : Tap) : Tap :=
  if strict_eq (x position) (x (_currentPosition t))
     && loose_eq (y position) (y (_currentPosition t))
  then t
  else set_currentPosition position (set_lastPosition (_currentPosition t) t).

Definition once_down (callback : Callback) : M unit :=
  Events_once "down" (once_closure callback).
Definition once_move (callback : Callback) : M unit :=
  Events_once "move" (once_closure callback).
Definition once_up (callback : Callback) : M unit :=
  Events_once "up" (once_closure callback).

Definition on_down (callback : Callback) : M unit :=
  Events_on "down" (on_closure callback).
Definition on_move (callback : Callback) : M unit :=
  Events_on "move" (on_closure callback).
Definition on_up (callback : Callback) : M unit :=
  Events_on "up" (on_closure callback).

(** [on.down], [on.move] or [on.up], by the handler whose key it is. *)
Definition on_key (h : Handler) (callback : Callback) : M unit :=
  match h with
  | onDown => on_down callback
  | onMove => on_move callback
  | onUp => on_up callback
  end.

(** [once.down], [once.move] or [once.up]. *)
Definition once_key (h : Handler) (callback : Callback) : M unit :=
  match h with
  | onDown => once_down callback
  | onMove => once_move callback
  | onUp => once_up callback
  end.

(** [pointerLock.request()]; the result is the identity of the promise
    returned. *)
Definition pointerLock_request : M nat :=
  p <- new_Promise ;;
  locked <- isLocked ;;
  if locked then ret p
  else
    document_addEventListener (resolve p) ;;
    once_down requestLock ;;
    ret p.

(** [pointerLock.exit()] *)
Definition pointerLock_exit : M nat :=
  p <- new_Promise ;;
  locked <- isLocked ;;
  if negb locked then ret p
  else
    document_addEventListener (resolve p) ;;
    log ExitPointerLock ;;
    ret p.

Section Methods.

Variable matrix : list Input.

(** [_add(element)]; [element ?? window] is never null here, so the
    warning branch is not taken. *)
Definition _add (el : option Target) : M unit :=
  update_this (set_domElement (match el with Some e => e | None => window end)) ;;
  forEach matrix (fun input =>
    if test input && enabled input then
      update_this (fun t => set_active (set_flag (name input) true (active t)) t) ;;
      addEventListener (down (events input)) onDown ;;
      addEventListener (move (events input)) onMove ;;
      addEventListener (up (events input)) onUp
    else ret tt).

(** [_remove(type)] *)
Definition _remove (ty : EventTypes.t) : M unit :=
  t <- get_this ;;
  if negb (get_flag (active t) ty) then ret tt
  else
    forEach matrix (fun input =>
      if EventTypes.eqb (name input) ty then
        removeEventListener (down (events input)) onDown ;;
        removeEventListener (move (events input)) onMove ;;
        removeEventListener (up (events input)) onUp
      else ret tt) ;;
    update_this (fun t => set_active (set_flag ty false (active t)) t).

(** [_calcPosition(e)] *)
Definition _calcPosition (e : DomEvent) : M Position :=
  t <- get_this ;;
  let xy :=
    match touches e with
    | Some (t0 :: _) => (num (pageX t0), num (pageY t0))
    | _ =>
        if truthy (clientX e) then (clientX e, clientY e)
        else (x (_currentPosition t), y (_currentPosition t))
    end in
  locked <- isLocked ;;
  let xy := if locked then (movementX e, movementY e) else xy in
  update_this (set__position {| x := fst xy; y := snd xy |}) ;;
  ret {| x := fst xy; y := snd xy |}.

(** [_removeDuplicates(e)] *)
Definition _removeDuplicates (e : DomEvent) : M bool :=
  (if type e =? "pointerdown"
   then update_this (fun t => set_registered (set_flag EventTypes.pointer true (registered t)) t)
   else ret tt) ;;
  (if type e =? "touchstart"
   then update_this (fun t => set_registered (set_flag EventTypes.touch true (registered t)) t)
   else ret tt) ;;
  (if type e =? "mousedown"
   then update_this (fun t => set_registered (set_flag EventTypes.mouse true (registered t)) t)
   else ret tt) ;;
  t <- get_this ;;
  if (type e =? "touchstart") && touch (active t) && pointer (registered t) then
    _remove EventTypes.touch ;;
    ret false
  else if (type e =? "mousedown") && mouse (active t)
          && (pointer (registered t) || touch (registered t)) then
    _remove EventTypes.mouse ;;
    ret false
  else ret true.

(** [_onDown(e)] *)
Definition _onDown (e : DomEvent) : M unit :=
  proceed <- _removeDuplicates e ;;
  if negb proceed then ret tt
  else
    update_this (set_isDown true) ;;
    p <- _calcPosition e ;;
    Events_emit "down" {| position := p; event := e; dragging := None |}.

(** [_onMove(e)] *)
Definition _onMove (e : DomEvent) : M unit :=
  p <- _calcPosition e ;;
  t <- get_this ;;
  Events_emit "move" {| position := p; event := e; dragging := Some (_isDown t) |}.

(** [_onUp(e)] *)
Definition _onUp (e : DomEvent) : M unit :=
  update_this (set_isDown false) ;;
  p <- _calcPosition e ;;
  Events_emit "up" {| position := p; event := e; dragging := None |}.

Definition call_handler (h : Handler) (e : DomEvent) : M unit :=
  match h with
  | onDown => _onDown e
  | onMove => _onMove e
  | onUp => _onUp e
  end.

(** The browser delivers [e] to the target element: the listeners
    registered for [e.type] when delivery starts run in registration
    order, one removed in the meantime is skipped. *)
Definition dispatchEvent (e : DomEvent) : M unit :=
  fun w =>
    forEach (filter (fun l => fst l =? type e) (el_listeners w))
      (fun l w' =>
         if existsb (listener_eqb l) (el_listeners w')
         then call_handler (snd l) e w' else (tt, w'))
      w.

(** The browser changes the pointer-lock state and fires
    [pointerlockchange] at the document; every listener there was
    registered with [{ once: true }]. *)
Definition pointerlockchange (locked : bool) : M unit :=
  fun w =>
    let ls := doc_listeners w in
    forEach ls call_doc_listener
      (with_doc_listeners (fun _ => []) (with_pointerLockElement locked w)).

(** [new Tap(domElement)] on a page where nothing listens yet. *)
Definition new_Tap (el : option Target) : World :=
  exec (_add el)
    {| this := {| _events := []; domElement := window;
                  _isDown := false; _isPaused := false;
                  active := {| touch := false; mouse := false; pointer := false |};
                  registered := {| touch := false; mouse := false; pointer := false |};
                  _currentPosition := {| x := num (-1); y := num (-1) |};
                  _lastPosition := {| x := num (-1); y := num (-1) |} |};
       el_listeners := []; doc_listeners := [];
       pointerLockElement := false; settled := []; next_promise := 0; trace := [] |}.

(** Everything that can happen to an instance. *)
Inductive Op : Type :=
| Fire (e : DomEvent)          (* a DOM event at the target *)
| LockChange (locked : bool)   (* pointerlockchange at the document *)
| Pause
| Resume
| OnDown (callback : nat)
| OnMove (callback : nat)
| OnUp (callback : nat)
| OnceDown (callback : nat)
| OnceMove (callback : nat)
| OnceUp (callback : nat)
| Request                      (* pointerLock.request() *)
| Exit                         (* pointerLock.exit() *)
| OnDoing (h : Handler) (id : nat) (calls : list Reentry)
                               (* on.<key>(callback), callback re-entrant *)
| OnceDoing (h : Handler) (id : nat) (calls : list Reentry).
                               (* once.<key>(callback), callback re-entrant *)

Definition perform (o : Op) : M unit :=
  match o with
  | Fire e => dispatchEvent e
  | LockChange b => pointerlockchange b
  | Pause => pause
  | Resume => resume
  | OnDown cb => on_down (user cb)
  | OnMove cb => on_move (user cb)
  | OnUp cb => on_up (user cb)
  | OnceDown cb => once_down (user cb)
  | OnceMove cb => once_move (user cb)
  | OnceUp cb => once_up (user cb)
  | Request => _ <- pointerLock_request ;; ret tt
  | Exit => _ <- pointerLock_exit ;; ret tt
  | OnDoing h id calls => on_key h (reentrant id calls)
  | OnceDoing h id calls => once_key h (reentrant id calls)
  end.

Definition step (w : World) (o : Op) : World := exec (perform o) w.

Definition run (w : World) (ops : list Op) : World := fold_left step ops w.

End Methods.

(* ------------------------------------------------------------------ *)
(** ** What one computation adds to the trace *)

Definition add_outputs (os : list Output) (w : World) : World :=
  with_trace (fun tr => tr ++ os) w.

(** The outputs produced by running [c] from [w]. *)
Definition outputs_of {A : Type} (c : M A) (w : World) : list Output :=
  skipn (List.length (trace w)) (trace (exec c w)).

(** The states passed through while performing [ops], first to last. *)
Fixpoint run_states (matrix : list Input) (w : World) (ops : list Op) : list World :=
  match ops with
  | [] => [w]
  | o :: rest => w :: run_states matrix (step matrix w o) rest
  end.

(** *** Closed forms of the emitter *)

Definition callback_of (fn : Closure) : Callback :=
  match fn with
  | on_closure callback | once_closure callback => callback
  end.

(** What calling [callback] outputs. *)
Definition callback_outputs (el : Target) (from : Closure) (callback : Callback)
    (data : TapEvent) : list Output :=
  match callback with
  | user _ | reentrant _ _ => [Called from data]
  | requestLock =>
      match el with
      | element _ => [Called from data; RequestPointerLock el]
      | window => [Called from data; TypeError]
      end
  end.

(** Whether calling [callback] returns rather than throws. *)
Definition callback_returns (el : Target) (callback : Callback) : bool :=
  match callback, el with
  | requestLock, window => false
  | _, _ => true
  end.

(** The pause flag after the calls a callback makes. *)
Definition after_calls (calls : list Reentry) (paused : bool) : bool :=
  fold_left (fun _ r => match r with call_pause => true | call_resume => false end)
            calls paused.

Definition callback_paused (callback : Callback) (paused : bool) : bool :=
  match callback with
  | reentrant _ calls => after_calls calls paused
  | _ => paused
  end.

(** Whether a closure calls its callback under the given pause flag. *)
Definition closure_calls (paused : bool) (fn : Closure) : bool :=
  match fn with
  | on_closure _ => negb paused
  | once_closure _ => true
  end.

(** The loop of [emit] as a function of what it reads: the outputs,
    the pause flag and the subscribers it leaves. *)
Fixpoint emit_each_pure (el : Target) (data : TapEvent) (subscribed : list Listener)
    (paused : bool) (ev : list Listener) : list Output * (bool * list Listener) :=
  match subscribed with
  | [] => ([], (paused, ev))
  | l :: rest =>
      let ev1 := if l_once l then remove_first l ev else ev in
      if closure_calls paused (l_fn l) then
        let c := callback_of (l_fn l) in
        let os := callback_outputs el (l_fn l) c data in
        if callback_returns el c then
          let r := emit_each_pure el data rest (callback_paused c paused) ev1 in
          (os ++ fst r, snd r)
        else (os, (callback_paused c paused, ev1))
      else emit_each_pure el data rest paused ev1
  end.

Definition emit_pure (t : Tap) (key : string) (data : TapEvent)
    : list Output * (bool * list Listener) :=
  emit_each_pure (domElement t) data
    (filter (fun l => l_event l =? key) (_events t)) (_isPaused t) (_events t).

(** Everything [emit(key, data)] outputs. *)
Definition emit_outputs (t : Tap) (key : string) (data : TapEvent) : list Output :=
  Emitted key data :: fst (emit_pure t key data).

(** The instance after [emit(key, data)]. *)
Definition after_emit (key : string) (data : TapEvent) (t : Tap) : Tap :=
  set_events (snd (snd (emit_pure t key data)))
    (set_isPaused (fst (snd (emit_pure t key data))) t).

(** State after [this._events.emit(key, data)]. *)
Definition publish (key : string) (data : TapEvent) (w : World) : World :=
  add_outputs (emit_outputs (this w) key data) (with_this (after_emit key data) w).

(** The position [_calcPosition(e)] returns. *)
Definition calc (e : DomEvent) (w : World) : Position := fst (_calcPosition e w).

(** The three assignments to [registered] at the head of
    [_removeDuplicates]. *)
Definition register (e : DomEvent) (t : Tap) : Tap :=
  let t1 := if type e =? "pointerdown"
            then set_registered (set_flag EventTypes.pointer true (registered t)) t
            else t in
  let t2 := if type e =? "touchstart"
            then set_registered (set_flag EventTypes.touch true (registered t1)) t1
            else t1 in
  if type e =? "mousedown"
  then set_registered (set_flag EventTypes.mouse true (registered t2)) t2
  else t2.

(** [_remove(ty)] past its guard. *)
Definition detach (matrix : list Input) (ty : EventTypes.t) (w : World) : World :=
  with_this (fun t => set_active (set_flag ty false (active t)) t)
    (exec (forEach matrix (fun input =>
        if EventTypes.eqb (name input) ty then
          removeEventListener (down (events input)) onDown ;;
          removeEventListener (move (events input)) onMove ;;
          removeEventListener (up (events input)) onUp
        else ret tt)) w).

(** Which family and handler the event matrix attaches to a DOM event
    type. *)
Definition handler_of (ty : string) : option (EventTypes.t * Handler) :=
  if "touchstart" =? ty then Some (EventTypes.touch, onDown)
  else if "touchmove" =? ty then Some (EventTypes.touch, onMove)
  else if "touchend" =? ty then Some (EventTypes.touch, onUp)
  else if "mousedown" =? ty then Some (EventTypes.mouse, onDown)
  else if "mousemove" =? ty then Some (EventTypes.mouse, onMove)
  else if "mouseup" =? ty then Some (EventTypes.mouse, onUp)
  else if "pointerdown" =? ty then Some (EventTypes.pointer, onDown)
  else if "pointermove" =? ty then Some (EventTypes.pointer, onMove)
  else if "pointerup" =? ty then Some (EventTypes.pointer, onUp)
  else None.

(** The listener table that goes with a given [active] object. *)
Definition table (a : Flags) : list (string * Handler) :=
  (if touch a then [("touchstart", onDown); ("touchmove", onMove); ("touchend", onUp)]
   else [])
  ++ (if mouse a then [("mousedown", onDown); ("mousemove", onMove); ("mouseup", onUp)]
      else [])
  ++ (if pointer a
      then [("pointerdown", onDown); ("pointermove", onMove); ("pointerup", onUp)]
      else []).

(** Listeners and [active] flags agree. *)
Definition attached (w : World) : Prop :=
  el_listeners w = table (active (this w)).

(** The families that pass [input.test && input.enabled]. *)
Definition supported (tests enableds : Flags) : Flags :=
  {| touch := touch tests && touch enableds;
     mouse := mouse tests && mouse enableds;
     pointer := pointer tests && pointer enableds |}.

(** Effect of one document listener on the settled promises. *)
Definition settle (s : list nat) (l : DocListener) : list nat :=
  match l with
  | resolve p => if existsb (Nat.eqb p) s then s else p :: s
  end.

Definition resolved_output (l : DocListener) : Output :=
  match l with resolve p => Resolved p end.

(** Promise [q] is settled, or its [resolve] continuation has been
    called, or a document listener still holds that continuation. *)
Definition resolvable (q : nat) (w : World) : Prop :=
  In q (settled w) \/ In (resolve q) (doc_listeners w) \/ In (Resolved q) (trace w).

(** Promise identities in use are below the next fresh one. *)
Definition promises_wf (w : World) : Prop :=
  forall q, resolvable q w -> q < next_promise w.

(** Promise [p] exists, is pending, and nothing holds its [resolve]
    continuation. *)
Definition unreachable_resolver (p : nat) (w : World) : Prop :=
  ~ resolvable p w /\ p < next_promise w.

Definition is_Fire (o : Op) : bool :=
  match o with Fire _ => true | _ => false end.


(** At most one of the touch and mouse families is active. *)
Definition at_most_one_of_touch_mouse (t : Tap) : Prop :=
  ~ (touch (active t) = true /\ mouse (active t) = true).

(** *** Sample environments and events *)

(** A device on which every family is supported and enabled. *)
Definition all_families : Flags :=
  {| touch := true; mouse := true; pointer := true |}.

(** A desktop without touch or pointer events. *)
Definition mouse_only : Flags :=
  {| touch := false; mouse := true; pointer := false |}.

Definition mouse_event (ty : string) (cx cy : Z) : DomEvent :=
  {| type := ty; touches := None; clientX := num cx; clientY := num cy;
     movementX := num 0; movementY := num 0 |}.

Definition pointer_event (ty : string) (cx cy : Z) : DomEvent :=
  {| type := ty; touches := None; clientX := num cx; clientY := num cy;
     movementX := num 0; movementY := num 0 |}.

(** A touch event with one finger down; it has no client or movement
    fields. *)
Definition touch_event (ty : string) (px py : Z) : DomEvent :=
  {| type := ty; touches := Some [ {| pageX := px; pageY := py |} ];
     clientX := undefined; clientY := undefined;
     movementX := undefined; movementY := undefined |}.

(** The position as the specification words it, before any pointer-lock
    override: the first touch point if the event carries touch points,
    else the client coordinates if it carries them, else the current
    position. *)
Definition claimed_position (e : DomEvent) (current : Position) : Position :=
  match touches e with
  | Some (t0 :: _) => {| x := num (pageX t0); y := num (pageY t0) |}
  | _ =>
      match clientX e with
      | num _ => {| x := clientX e; y := clientY e |}
      | undefined => current
      end
  end.

(** The position carried by an output, if it carries one. *)
Definition payload_position (o : Output) : option Position :=
  match o with
  | Emitted _ data | Called _ data => Some (position data)
  | _ => None
  end.

(** The listener table once the three listeners of family [k] have been
    removed, in the order [_remove] removes them. *)
Definition without_family (k : EventTypes.t) (ls : list (string * Handler))
    : list (string * Handler) :=
  filter (fun l => negb (listener_eqb (up (family_events k), onUp) l))
    (filter (fun l => negb (listener_eqb (move (family_events k), onMove) l))
       (filter (fun l => negb (listener_eqb (down (family_events k), onDown) l)) ls)).

(** The outputs of one ingestion, in closed form. *)
Definition handler_outputs (matrix : list Input) (h : Handler) (e : DomEvent)
    (w : World) : list Output :=
  match h with
  | onDown =>
      if fst (_removeDuplicates matrix e w)
      then emit_outputs (this w) "down"
             {| position := calc e w; event := e; dragging := None |}
      else []
  | onMove =>
      emit_outputs (this w) "move"
        {| position := calc e w; event := e; dragging := Some (_isDown (this w)) |}
  | onUp =>
      emit_outputs (this w) "up"
        {| position := calc e w; event := e; dragging := None |}
  end.

(* ------------------------------------------------------------------ *)
(** ** Teardown *)

(** Modelled from the spec: [Events.removeAllListeners] "clears all
    subscribers". *)
Definition Events_removeAllListeners : M unit := update_this (set_events []).

(** What is left once an instance is gone: the listener table of the
    target element, the document side and the trace. *)
Record Page : Type := {
  page_el_listeners : list (string * Handler);
  page_doc_listeners : list DocListener;
  page_pointerLockElement : bool;
  page_settled : list nat;
  page_next_promise : nat;
  page_trace : list Output
}.

(** [destroy()].  [Object.keys(this.active)] lists the keys in the
    order of the object literal.  The eight assignments of [null] at
    the end leave no field of the instance, so the result is a [Page]. *)
Definition destroy (matrix : list Input) (w : World) : Page :=
  let w' :=
    exec (pause ;;
          forEach [EventTypes.touch; EventTypes.mouse; EventTypes.pointer]
            (fun key => _remove matrix key) ;;
          Events_removeAllListeners) w in
  {| page_el_listeners := el_listeners w';
     page_doc_listeners := doc_listeners w';
     page_pointerLockElement := pointerLockElement w';
     page_settled := settled w';
     page_next_promise := next_promise w';
     page_trace := trace w' |}.

(* ------------------------------------------------------------------ *)
(** ** Invariants of reachable states *)

(** The position both fields start with. *)
Definition initial_position : Position := {| x := num (-1); y := num (-1) |}.

(** [lastPosition] differs from [currentPosition] unless neither has
    been written yet. *)
Definition positions_apart (current last : Position) : Prop :=
  (current = initial_position /\ last = initial_position) \/ last <> current.

(** How [active] and [registered] relate to the supported families
    [sup]: only supported families are active or registered, pointer
    is never deactivated, and a family is deactivated only after its
    own down event met a family of higher precedence already
    registered. *)
Definition precedence (sup a r : Flags) : Prop :=
  (forall k, get_flag a k = true -> get_flag sup k = true) /\
  (forall k, get_flag r k = true -> get_flag sup k = true) /\
  pointer a = pointer sup /\
  (touch sup = true -> touch a = false ->
   touch r = true /\ pointer r = true) /\
  (mouse sup = true -> mouse a = false ->
   mouse r = true /\ (pointer r = true \/ touch r = true)).

(** The family a listener of the event matrix belongs to. *)
Definition family_of (l : string * Handler) : option EventTypes.t :=
  match handler_of (fst l) with
  | Some (k, h) => if Handler_eqb h (snd l) then Some k else None
  | None => None
  end.

(** Promise [p] is settled or a document listener will settle it. *)
Definition will_settle (p : nat) (w : World) : Prop :=
  In (resolve p) (doc_listeners w) \/ In p (settled w).

(* ------------------------------------------------------------------ *)
(** ** Subscriptions and publications *)

(** The key a handler publishes under. *)
Definition key_of (h : Handler) : string :=
  match h with
  | onDown => "down"
  | onMove => "move"
  | onUp => "up"
  end.

(** The DOM event type that reaches handler [h] for family [k]. *)
Definition event_name (h : Handler) (k : EventTypes.t) : string :=
  match h with
  | onDown => down (family_events k)
  | onMove => move (family_events k)
  | onUp => up (family_events k)
  end.

(** [on.down(cb)], [on.move(cb)] or [on.up(cb)] as an operation. *)
Definition subscribe_on (h : Handler) (callback : nat) : Op :=
  match h with
  | onDown => OnDown callback
  | onMove => OnMove callback
  | onUp => OnUp callback
  end.


(** Whether handler [h] gets as far as publishing: only a down event
    can be discarded. *)
Definition proceeds (matrix : list Input) (h : Handler) (e : DomEvent) (w : World)
    : bool :=
  match h with
  | onDown => fst (_removeDuplicates matrix e w)
  | _ => true
  end.

(** The payload handler [h] publishes for [e] from state [w]. *)
Definition payload (h : Handler) (e : DomEvent) (w : World) : TapEvent :=
  {| position := calc e w; event := e;
     dragging := match h with
                 | onMove => Some (_isDown (this w))
                 | _ => None
                 end |}.

Definition is_emitted (key : string) (o : Output) : bool :=
  match o with
  | Emitted k _ => k =? key
  | _ => false
  end.

(** Whether operation [o], performed from [w], publishes under [key]. *)
Definition publishes (matrix : list Input) (key : string) (w : World) (o : Op)
    : bool :=
  existsb (is_emitted key) (outputs_of (perform matrix o) w).


(** Whether a callback makes the call [r] on the instance. *)
Definition makes_call (r : Reentry) (callback : Callback) : bool :=
  match callback with
  | reentrant _ calls => existsb (Reentry_eqb r) calls
  | _ => false
  end.

(** No callback subscribed to [key] makes the call [r]. *)
Definition never_calls (r : Reentry) (key : string) (t : Tap) : bool :=
  forallb (fun l => negb (l_event l =? key)
                    || negb (makes_call r (callback_of (l_fn l))))
          (_events t).

(** No callback subscribed to [key] throws when called. *)
Definition never_throws (key : string) (t : Tap) : bool :=
  forallb (fun l => negb (l_event l =? key)
                    || callback_returns (domElement t) (callback_of (l_fn l)))
          (_events t).


(* ------------------------------------------------------------------ *)
(** * Lemmas *)

(** Runs [pointerLock.request()] or [pointerLock.exit()] as a step from
    [w] and splits on the lock state it reads. *)
Ltac lock_call w :=
  unfold step, exec, perform, pointerLock_request, pointerLock_exit, bind,
    new_Promise, isLocked;
  simpl; destruct (pointerLockElement w); simpl.

Lemma add_outputs_nil w : add_outputs [] w = w.
Proof. destruct w; unfold add_outputs, with_trace; simpl. now rewrite app_nil_r. Qed.

Lemma add_outputs_app a b w : add_outputs b (add_outputs a w) = add_outputs (a ++ b) w.
Proof. unfold add_outputs, with_trace; simpl. now rewrite app_assoc. Qed.

Lemma with_this_id w : with_this (fun t => t) w = w.
Proof. now destruct w. Qed.

Lemma forEach_reenter calls : forall w,
  forEach calls reenter w
  = (tt, with_this (fun t => set_isPaused (after_calls calls (_isPaused t)) t) w).
Proof.
  induction calls as [|r calls IH]; intros [[ev el isd isp act reg cur last] ? ? ? ? ? ?].
  - reflexivity.
  - cbn [forEach]. unfold bind at 1. destruct r; simpl; rewrite IH; reflexivity.
Qed.

Lemma call_callback_spec from cb data w :
  call_callback from cb data w
  = (callback_returns (domElement (this w)) cb,
     add_outputs (callback_outputs (domElement (this w)) from cb data)
       (with_this (fun t => set_isPaused (callback_paused cb (_isPaused t)) t) w)).
Proof.
  destruct w as [[ev el isd isp act reg cur last] ? ? ? ? ? ?].
  destruct cb as [id| |id calls]; unfold call_callback.
  - reflexivity.
  - unfold bind, log, get_this, add_outputs, with_trace, ret; simpl.
    destruct el; simpl; now rewrite <- app_assoc.
  - unfold bind at 1 2. rewrite forEach_reenter. reflexivity.
Qed.

Lemma call_closure_spec fn data w :
  call_closure fn data w
  = if closure_calls (_isPaused (this w)) fn
    then (callback_returns (domElement (this w)) (callback_of fn),
          add_outputs (callback_outputs (domElement (this w)) fn (callback_of fn) data)
            (with_this (fun t => set_isPaused
                                   (callback_paused (callback_of fn) (_isPaused t)) t)
               w))
    else (true, w).
Proof.
  destruct fn as [cb|cb]; unfold call_closure, bind, get_this; simpl.
  - destruct (_isPaused (this w)); simpl; [reflexivity | apply call_callback_spec].
  - apply call_callback_spec.
Qed.

Lemma emit_each_spec data subscribed : forall w,
  emit_each subscribed data w
  = (tt,
     let r := emit_each_pure (domElement (this w)) data subscribed
                (_isPaused (this w)) (_events (this w)) in
     add_outputs (fst r)
       (with_this (fun t => set_events (snd (snd r)) (set_isPaused (fst (snd r)) t)) w)).
Proof.
  induction subscribed as [|l rest IH];
    intros [[ev el isd isp act reg cur last] ell dl ple st np tr].
  - unfold add_outputs, with_trace, with_this; simpl. now rewrite app_nil_r.
  - cbn [emit_each emit_each_pure]. unfold bind at 1.
    set (ev1 := if l_once l then remove_first l ev else ev).
    assert (Hw1 : snd ((if l_once l then Events_removeListener l else ret tt)
                         {| this := {| _events := ev; domElement := el; _isDown := isd;
                                       _isPaused := isp; active := act;
                                       registered := reg; _currentPosition := cur;
                                       _lastPosition := last |};
                            el_listeners := ell; doc_listeners := dl;
                            pointerLockElement := ple; settled := st;
                            next_promise := np; trace := tr |})
                  = {| this := {| _events := ev1; domElement := el; _isDown := isd;
                                  _isPaused := isp; active := act;
                                  registered := reg; _currentPosition := cur;
                                  _lastPosition := last |};
                       el_listeners := ell; doc_listeners := dl;
                       pointerLockElement := ple; settled := st;
                       next_promise := np; trace := tr |}).
    { unfold ev1. destruct (l_once l); reflexivity. }
    rewrite Hw1. unfold bind. rewrite call_closure_spec. cbn [this _isPaused domElement].
    cbv zeta.
    destruct (closure_calls isp (l_fn l)); cbn [fst snd].
    + destruct (callback_returns el (callback_of (l_fn l))); cbn [fst snd].
      * rewrite IH. unfold add_outputs, with_trace, with_this; simpl.
        now rewrite app_assoc.
      * unfold add_outputs, with_trace, with_this; simpl. reflexivity.
    + rewrite IH. reflexivity.
Qed.

Lemma Events_emit_spec key data w :
  Events_emit key data w = (tt, publish key data w).
Proof.
  unfold Events_emit, publish, bind, log, get_this; simpl.
  rewrite emit_each_spec. cbv zeta.
  unfold emit_outputs, after_emit, emit_pure, add_outputs, with_trace, with_this; simpl.
  now rewrite <- app_assoc.
Qed.

(** [emit] leaves every field but the subscribers and the pause flag. *)
Lemma after_emit_frame key data t :
  domElement (after_emit key data t) = domElement t /\
  _isDown (after_emit key data t) = _isDown t /\
  active (after_emit key data t) = active t /\
  registered (after_emit key data t) = registered t /\
  _currentPosition (after_emit key data t) = _currentPosition t /\
  _lastPosition (after_emit key data t) = _lastPosition t.
Proof. repeat split. Qed.

(** [set _position] touches the two position fields only. *)
Lemma set__position_frame p t :
  _events (set__position p t) = _events t /\
  domElement (set__position p t) = domElement t /\
  _isDown (set__position p t) = _isDown t /\
  _isPaused (set__position p t) = _isPaused t /\
  active (set__position p t) = active t /\
  registered (set__position p t) = registered t.
Proof. unfold set__position. destruct (_ && _); simpl; repeat split. Qed.

Lemma strict_eq_spec a b : reflect (a = b) (strict_eq a b).
Proof.
  destruct a as [|p], b as [|q]; simpl; try (constructor; congruence).
  destruct (Z.eqb_spec p q); constructor; congruence.
Qed.

Lemma loose_eq_spec a b : reflect (a = b) (loose_eq a b).
Proof.
  destruct a as [|p], b as [|q]; simpl; try (constructor; congruence).
  destruct (Z.eqb_spec p q); constructor; congruence.
Qed.

Lemma _calcPosition_spec e w :
  _calcPosition e w = (calc e w, with_this (set__position (calc e w)) w).
Proof. reflexivity. Qed.

Lemma _onMove_spec e w :
  exec (_onMove e) w
  = publish "move"
      {| position := calc e w; event := e; dragging := Some (_isDown (this w)) |}
      (with_this (set__position (calc e w)) w).
Proof.
  unfold exec, _onMove, bind. rewrite Events_emit_spec, _calcPosition_spec.
  unfold get_this; simpl.
  now destruct (set__position_frame (calc e w) (this w)) as (_ & _ & -> & _).
Qed.

Lemma _onUp_spec e w :
  exec (_onUp e) w
  = publish "up" {| position := calc e w; event := e; dragging := None |}
      (with_this (fun t => set__position (calc e w) (set_isDown false t)) w).
Proof.
  unfold exec, _onUp, bind. rewrite Events_emit_spec; simpl. reflexivity.
Qed.

Lemma _remove_spec matrix ty w :
  _remove matrix ty w
  = (tt, if get_flag (active (this w)) ty then detach matrix ty w else w).
Proof.
  unfold _remove, bind, get_this; simpl.
  destruct (get_flag (active (this w)) ty); reflexivity.
Qed.

Lemma _removeDuplicates_spec matrix e w :
  _removeDuplicates matrix e w =
  let w1 := with_this (register e) w in
  let t := this w1 in
  if (type e =? "touchstart") && touch (active t) && pointer (registered t)
  then (false, detach matrix EventTypes.touch w1)
  else if (type e =? "mousedown") && mouse (active t)
          && (pointer (registered t) || touch (registered t))
  then (false, detach matrix EventTypes.mouse w1)
  else (true, w1).
Proof.
  unfold _removeDuplicates, register, bind, get_this.
  destruct (String.eqb_spec (type e) "pointerdown") as [E|E].
  - rewrite E; simpl. reflexivity.
  - destruct (String.eqb_spec (type e) "touchstart") as [E1|E1].
    + rewrite E1; simpl.
      destruct (touch (active (this w))) eqn:Ha; simpl; [|reflexivity].
      destruct (pointer (registered (this w))); simpl; [|reflexivity].
      rewrite _remove_spec; simpl. now rewrite Ha.
    + destruct (String.eqb_spec (type e) "mousedown") as [E2|E2].
      * simpl.
        destruct (mouse (active (this w))) eqn:Ha; simpl; [|reflexivity].
        destruct (pointer (registered (this w)) || touch (registered (this w)));
          simpl; [|reflexivity].
        rewrite _remove_spec; simpl. now rewrite Ha.
      * simpl. now rewrite with_this_id.
Qed.

Lemma _onDown_spec matrix e w :
  exec (_onDown matrix e) w
  = let r := _removeDuplicates matrix e w in
    if fst r
    then publish "down"
           {| position := calc e (snd r); event := e; dragging := None |}
           (with_this (fun t => set__position (calc e (snd r)) (set_isDown true t))
              (snd r))
    else snd r.
Proof.
  unfold exec, _onDown, bind. cbv zeta.
  destruct (fst (_removeDuplicates matrix e w)); simpl; [|reflexivity].
  now rewrite Events_emit_spec.
Qed.

(** [register] only writes [registered], and only sets flags. *)
Lemma register_frame e t :
  _events (register e t) = _events t /\
  domElement (register e t) = domElement t /\
  _isDown (register e t) = _isDown t /\
  _isPaused (register e t) = _isPaused t /\
  active (register e t) = active t /\
  _currentPosition (register e t) = _currentPosition t /\
  _lastPosition (register e t) = _lastPosition t.
Proof.
  unfold register.
  destruct (type e =? "pointerdown"), (type e =? "touchstart"), (type e =? "mousedown");
    simpl; repeat split.
Qed.

Lemma register_monotone e t k :
  get_flag (registered t) k = true -> get_flag (registered (register e t)) k = true.
Proof.
  unfold register.
  destruct (type e =? "pointerdown"), (type e =? "touchstart"), (type e =? "mousedown"),
    k; simpl; auto.
Qed.

Lemma register_pointerdown e t :
  type e = "pointerdown" -> pointer (registered (register e t)) = true.
Proof. unfold register; intros ->; reflexivity. Qed.

Lemma register_touchstart e t :
  type e = "touchstart" -> touch (registered (register e t)) = true.
Proof. unfold register; intros ->; reflexivity. Qed.

Lemma register_mousedown e t :
  type e = "mousedown" -> mouse (registered (register e t)) = true.
Proof. unfold register; intros ->; reflexivity. Qed.

Section Families.

Variables tests enableds : Flags.

Local Abbreviation m := (eventMatrix tests enableds).

Lemma new_Tap_spec el :
  new_Tap m el
  = {| this := {| _events := [];
                  domElement := match el with Some e => e | None => window end;
                  _isDown := false; _isPaused := false;
                  active := supported tests enableds;
                  registered := {| touch := false; mouse := false; pointer := false |};
                  _currentPosition := {| x := num (-1); y := num (-1) |};
                  _lastPosition := {| x := num (-1); y := num (-1) |} |};
       el_listeners := table (supported tests enableds); doc_listeners := [];
       pointerLockElement := false; settled := []; next_promise := 0; trace := [] |}.
Proof.
  unfold supported.
  destruct tests as [[] [] []], enableds as [[] [] []]; reflexivity.
Qed.

Lemma detach_spec ty w :
  this (detach m ty w) = set_active (set_flag ty false (active (this w))) (this w) /\
  doc_listeners (detach m ty w) = doc_listeners w /\
  pointerLockElement (detach m ty w) = pointerLockElement w /\
  settled (detach m ty w) = settled w /\
  next_promise (detach m ty w) = next_promise w /\
  trace (detach m ty w) = trace w.
Proof. destruct ty; repeat split. Qed.

Lemma detach_attached ty w : attached w -> attached (detach m ty w).
Proof.
  unfold attached; intros H.
  destruct ty; simpl; rewrite H;
    destruct (active (this w)) as [[] [] []]; reflexivity.
Qed.

(** No listener of family [ty] is left after [detach]. *)
Lemma detach_listeners ty w l :
  attached w -> In l (el_listeners (detach m ty w)) ->
  exists k h, handler_of (fst l) = Some (k, h) /\ k <> ty.
Proof.
  intros H Hin. apply detach_attached with (ty := ty) in H. rewrite H in Hin.
  rewrite (proj1 (detach_spec ty w)) in Hin. simpl in Hin.
  destruct ty, (active (this w)) as [[] [] []]; simpl in Hin;
    repeat (destruct Hin as [<- | Hin];
            [ eexists _, _; split; [reflexivity | discriminate] | ]);
    contradiction.
Qed.

Lemma dispatchEvent_spec e w :
  attached w ->
  exec (dispatchEvent m e) w
  = match handler_of (type e) with
    | Some (k, h) =>
        if get_flag (active (this w)) k then exec (call_handler m h e) w else w
    | None => w
    end.
Proof.
  unfold attached, exec, dispatchEvent, handler_of; intros H. rewrite H.
  destruct (active (this w)) as [[] [] []] eqn:Ha;
    cbn [table app filter fst get_flag touch mouse pointer];
    repeat match goal with
      | |- context [String.eqb ?s (type e)] =>
          let E := fresh "E" in
          destruct (String.eqb_spec s (type e)) as [E | E];
          [ rewrite <- ?E; cbn -[call_handler]; unfold bind;
            rewrite ?H, ?Ha; cbn -[call_handler]; reflexivity
          | cbn [filter fst] ]
      end;
    reflexivity.
Qed.

(** The two ways [_removeDuplicates] can end. *)
Lemma _removeDuplicates_cases e w :
  let w1 := with_this (register e) w in
  (_removeDuplicates m e w = (true, w1)) \/
  (exists k,
      _removeDuplicates m e w = (false, detach m k w1) /\
      get_flag (active (this w)) k = true /\
      ((k = EventTypes.touch /\ type e = "touchstart" /\
        pointer (registered (this w)) = true) \/
       (k = EventTypes.mouse /\ type e = "mousedown" /\
        pointer (registered (this w)) || touch (registered (this w)) = true))).
Proof.
  rewrite _removeDuplicates_spec. cbv zeta. unfold register.
  destruct (String.eqb_spec (type e) "pointerdown") as [E|E];
    [rewrite E; simpl; now left|].
  destruct (String.eqb_spec (type e) "touchstart") as [E1|E1].
  - rewrite E1; simpl.
    destruct (touch (active (this w))) eqn:Ha; simpl; [|now left].
    destruct (pointer (registered (this w))) eqn:Hr; simpl; [|now left].
    right. exists EventTypes.touch. repeat split; auto.
  - destruct (String.eqb_spec (type e) "mousedown") as [E2|E2]; simpl; [|now left].
    destruct (mouse (active (this w))) eqn:Ha; simpl; [|now left].
    destruct (pointer (registered (this w)) || touch (registered (this w))) eqn:Hr;
      simpl; [|now left].
    right. exists EventTypes.mouse. repeat split; auto.
Qed.

Lemma _removeDuplicates_attached e w :
  attached w -> attached (snd (_removeDuplicates m e w)).
Proof.
  intros H.
  assert (H1 : attached (with_this (register e) w)).
  { unfold attached in *; simpl.
    now destruct (register_frame e (this w)) as (_ & _ & _ & _ & -> & _). }
  destruct (_removeDuplicates_cases e w) as [-> | (k & -> & _)]; simpl; auto.
  now apply detach_attached.
Qed.

Lemma call_handler_attached h e w :
  attached w -> attached (exec (call_handler m h e) w).
Proof.
  intros H. destruct h; simpl.
  - rewrite _onDown_spec. cbv zeta.
    pose proof (_removeDuplicates_attached e w H) as H1.
    destruct (fst (_removeDuplicates m e w)); auto.
    unfold attached in *; simpl. rewrite H1.
    now destruct (set__position_frame (calc e (snd (_removeDuplicates m e w)))
                    (set_isDown true (this (snd (_removeDuplicates m e w)))))
      as (_ & _ & _ & _ & -> & _).
  - rewrite _onMove_spec. unfold attached in *; simpl. rewrite H.
    now destruct (set__position_frame (calc e w) (this w)) as (_ & _ & _ & _ & -> & _).
  - rewrite _onUp_spec. unfold attached in *; simpl. rewrite H.
    now destruct (set__position_frame (calc e w) (set_isDown false (this w)))
      as (_ & _ & _ & _ & -> & _).
Qed.

Lemma forEach_call_doc_listener ls w :
  forEach ls call_doc_listener w
  = (tt, with_settled (fun s => fold_left settle ls s)
           (add_outputs (map resolved_output ls) w)).
Proof.
  revert w; induction ls as [|[p] ls IH]; intro w.
  - simpl. rewrite add_outputs_nil. now destruct w.
  - cbn [forEach]. unfold bind at 1. rewrite IH.
    unfold call_doc_listener, bind, log, add_outputs, with_settled, with_trace; simpl.
    now rewrite <- app_assoc.
Qed.

Lemma pointerlockchange_spec b w :
  exec (pointerlockchange b) w
  = with_settled (fun s => fold_left settle (doc_listeners w) s)
      (add_outputs (map resolved_output (doc_listeners w))
         (with_doc_listeners (fun _ => []) (with_pointerLockElement b w))).
Proof. unfold exec, pointerlockchange. now rewrite forEach_call_doc_listener. Qed.

Lemma step_attached w o : attached w -> attached (step m w o).
Proof.
  intros H. unfold step. destruct o; try exact H; try (destruct h; exact H).
  - cbn [perform]. rewrite dispatchEvent_spec by exact H.
    destruct (handler_of (type e)) as [[k h]|]; auto.
    destruct (get_flag (active (this w)) k); auto.
    now apply call_handler_attached.
  - cbn [perform]. now rewrite pointerlockchange_spec.
  - lock_call w; exact H.
  - lock_call w; exact H.
Qed.

Lemma run_attached ops : forall w, attached w -> attached (run m w ops).
Proof.
  induction ops as [|o ops IH]; intros w H; simpl; auto using step_attached.
Qed.

Lemma new_Tap_attached el : attached (new_Tap m el).
Proof. rewrite new_Tap_spec. reflexivity. Qed.

Lemma reachable_attached el ops : attached (run m (new_Tap m el) ops).
Proof. apply run_attached, new_Tap_attached. Qed.


Lemma calc_ext e w1 w2 :
  _currentPosition (this w1) = _currentPosition (this w2) ->
  pointerLockElement w1 = pointerLockElement w2 ->
  calc e w1 = calc e w2.
Proof.
  unfold calc, _calcPosition, bind, get_this, isLocked, update_this, ret; simpl.
  now intros -> ->.
Qed.

Lemma calc_register e e' w : calc e (with_this (register e') w) = calc e w.
Proof.
  apply calc_ext; simpl; auto.
  now destruct (register_frame e' (this w)) as (_ & _ & _ & _ & _ & -> & _).
Qed.

(** [_onDown] either publishes or discards. *)
Lemma _onDown_cases e w :
  (fst (_removeDuplicates m e w) = true /\
   exec (_onDown m e) w
   = publish "down" {| position := calc e w; event := e; dragging := None |}
       (with_this (fun t => set__position (calc e w) (set_isDown true (register e t)))
          w)) \/
  (fst (_removeDuplicates m e w) = false /\
   exists k,
     exec (_onDown m e) w = detach m k (with_this (register e) w) /\
     get_flag (active (this w)) k = true /\
     ((k = EventTypes.touch /\ type e = "touchstart" /\
       pointer (registered (this w)) = true) \/
      (k = EventTypes.mouse /\ type e = "mousedown" /\
       pointer (registered (this w)) || touch (registered (this w)) = true))).
Proof.
  rewrite _onDown_spec. cbv zeta.
  destruct (_removeDuplicates_cases e w) as [-> | (k & -> & Hk)]; simpl.
  - left. split; auto. now rewrite calc_register.
  - right. split; auto. now exists k.
Qed.

Lemma _onDown_touchstart_discarded e w :
  type e = "touchstart" ->
  touch (active (this w)) = true -> pointer (registered (this w)) = true ->
  exec (_onDown m e) w = detach m EventTypes.touch (with_this (register e) w).
Proof.
  intros E Ha Hr. rewrite _onDown_spec, _removeDuplicates_spec. cbv zeta. simpl.
  destruct (register_frame e (this w)) as (_ & _ & _ & _ & -> & _).
  rewrite (register_monotone e (this w) EventTypes.pointer Hr : pointer _ = true).
  now rewrite E, Ha.
Qed.

Lemma _onDown_mousedown_discarded e w :
  type e = "mousedown" ->
  mouse (active (this w)) = true ->
  pointer (registered (this w)) || touch (registered (this w)) = true ->
  exec (_onDown m e) w = detach m EventTypes.mouse (with_this (register e) w).
Proof.
  intros E Ha Hr. rewrite _onDown_spec, _removeDuplicates_spec. cbv zeta. simpl.
  destruct (register_frame e (this w)) as (_ & _ & _ & _ & -> & _).
  assert (Hr' : pointer (registered (register e (this w)))
                || touch (registered (register e (this w))) = true).
  { apply orb_true_iff in Hr. apply orb_true_iff. destruct Hr as [Hr|Hr]; [left|right].
    - exact (register_monotone e (this w) EventTypes.pointer Hr).
    - exact (register_monotone e (this w) EventTypes.touch Hr). }
  rewrite Hr', E, Ha. reflexivity.
Qed.

(** What no handler changes, and the direction in which [registered]
    and [active] can move. *)
Lemma call_handler_frame h e w :
  let w' := exec (call_handler m h e) w in
  doc_listeners w' = doc_listeners w /\
  pointerLockElement w' = pointerLockElement w /\
  settled w' = settled w /\
  next_promise w' = next_promise w /\
  domElement (this w') = domElement (this w) /\
  (forall k, get_flag (registered (this w)) k = true ->
             get_flag (registered (this w')) k = true) /\
  (forall k, get_flag (active (this w')) k = true ->
             get_flag (active (this w)) k = true).
Proof.
  cbv zeta. destruct h; cbn [call_handler].
  - destruct (_onDown_cases e w) as [(_ & ->) | (_ & k & -> & _)].
    + simpl.
      destruct (set__position_frame (calc e w) (set_isDown true (register e (this w))))
        as (_ & -> & _ & _ & -> & ->). simpl.
      destruct (register_frame e (this w)) as (_ & -> & _ & _ & -> & _).
      repeat split; auto using register_monotone.
    + destruct (detach_spec k (with_this (register e) w))
        as (-> & -> & -> & -> & -> & _). simpl.
      destruct (register_frame e (this w)) as (_ & -> & _ & _ & -> & _).
      repeat split; auto using register_monotone.
      intros k'. destruct k, k', (active (this w)) as [[] [] []]; simpl; auto.
  - rewrite _onMove_spec. simpl.
    destruct (set__position_frame (calc e w) (this w))
      as (_ & -> & _ & _ & -> & ->).
    repeat split; auto.
  - rewrite _onUp_spec. simpl.
    destruct (set__position_frame (calc e w) (set_isDown false (this w)))
      as (_ & -> & _ & _ & -> & ->).
    repeat split; auto.
Qed.

Lemma step_Fire e w :
  attached w ->
  step m w (Fire e)
  = match handler_of (type e) with
    | Some (k, h) =>
        if get_flag (active (this w)) k then exec (call_handler m h e) w else w
    | None => w
    end.
Proof. intros H. unfold step. cbn [perform]. now apply dispatchEvent_spec. Qed.

(** Along any step [registered] only gains flags and [active] only
    loses them. *)
Lemma step_flags w o :
  attached w ->
  (forall k, get_flag (registered (this w)) k = true ->
             get_flag (registered (this (step m w o))) k = true) /\
  (forall k, get_flag (active (this (step m w o))) k = true ->
             get_flag (active (this w)) k = true).
Proof.
  intros H. destruct o; try (split; intros k Hk; exact Hk);
    try (destruct h; split; intros k Hk; exact Hk).
  - rewrite step_Fire by exact H.
    destruct (handler_of (type e)) as [[k h]|]; [|split; auto].
    destruct (get_flag (active (this w)) k); [|split; auto].
    destruct (call_handler_frame h e w) as (_ & _ & _ & _ & _ & Hr & Ha).
    split; assumption.
  - unfold step. cbn [perform]. rewrite pointerlockchange_spec. split; auto.
  - lock_call w; split; auto.
  - lock_call w; split; auto.
Qed.

Lemma run_flags ops : forall w,
  attached w ->
  (forall k, get_flag (registered (this w)) k = true ->
             get_flag (registered (this (run m w ops))) k = true) /\
  (forall k, get_flag (active (this (run m w ops))) k = true ->
             get_flag (active (this w)) k = true).
Proof.
  induction ops as [|o ops IH]; intros w H; simpl; [split; auto|].
  destruct (step_flags w o H) as [Hr Ha].
  destruct (IH (step m w o) (step_attached w o H)) as [Hr' Ha'].
  split; auto.
Qed.

(** An ingested down event leaves its family registered. *)
Lemma _onDown_registers e w k :
  handler_of (type e) = Some (k, onDown) ->
  get_flag (registered (this (exec (_onDown m e) w))) k = true.
Proof.
  intros Hk.
  assert (Hreg : get_flag (registered (register e (this w))) k = true).
  { unfold handler_of in Hk.
    repeat match type of Hk with
      | (if String.eqb ?s (type e) then _ else _) = _ =>
          let E := fresh "E" in
          destruct (String.eqb_spec s (type e)) as [E|E]; cbv beta iota in Hk;
          [ inversion Hk; subst k; symmetry in E;
            first [ exact (register_touchstart e _ E)
                  | exact (register_mousedown e _ E)
                  | exact (register_pointerdown e _ E) ]
          | ]
      end.
    discriminate. }
  destruct (_onDown_cases e w) as [(_ & ->) | (_ & k' & -> & _)].
  - simpl.
    now destruct (set__position_frame (calc e w) (set_isDown true (register e (this w))))
      as (_ & _ & _ & _ & _ & ->).
  - now rewrite (proj1 (detach_spec k' (with_this (register e) w))).
Qed.

(** Once a down event of family [k] has been ingested, [k] stays
    registered. *)
Lemma ingested_registered el ops1 e0 ops2 k :
  handler_of (type e0) = Some (k, onDown) ->
  get_flag (active (this (run m (new_Tap m el) ops1))) k = true ->
  get_flag (registered (this (run m (run m (new_Tap m el) ops1) (Fire e0 :: ops2)))) k
  = true.
Proof.
  intros Hk Ha.
  pose proof (reachable_attached el ops1) as Hatt.
  set (w0 := run m (new_Tap m el) ops1) in *.
  cbn [run fold_left]. fold (run m (step m w0 (Fire e0)) ops2).
  apply run_flags; [now apply step_attached|].
  rewrite step_Fire by exact Hatt. rewrite Hk, Ha. cbn [call_handler].
  now apply _onDown_registers.
Qed.

End Families.

(* ------------------------------------------------------------------ *)
(** * Duplicate suppression *)

(** C1.  After a [pointerdown] has been ingested (the pointer family
    was attached when it fired), a [touchstart] that finds the touch
    family still active detaches the touch listeners, clears
    [active.touch], and publishes nothing. *)
Theorem touchstart_after_pointerdown_discarded
    (tests enableds : Flags) (el : option Target)
    (ops1 : list Op) (e0 : DomEvent) (ops2 : list Op) (e : DomEvent) :
  let m := eventMatrix tests enableds in
  let w0 := run m (new_Tap m el) ops1 in
  let w := run m w0 (Fire e0 :: ops2) in
  let w' := step m w (Fire e) in
  type e0 = "pointerdown" -> pointer (active (this w0)) = true ->
  type e = "touchstart" -> touch (active (this w)) = true ->
  touch (active (this w')) = false /\
  (forall l, In l (el_listeners w') ->
             fst l <> "touchstart" /\ fst l <> "touchmove" /\ fst l <> "touchend") /\
  trace w' = trace w.
Proof.
  intros m w0 w w' E0 Ha0 E Ha. subst m.
  assert (Hatt : attached w) by apply run_attached, reachable_attached.
  assert (Hr : pointer (registered (this w)) = true).
  { apply (ingested_registered tests enableds el ops1 e0 ops2 EventTypes.pointer); auto.
    now rewrite E0. }
  assert (Hw' : w' = detach (eventMatrix tests enableds) EventTypes.touch
                     (with_this (register e) w)).
  { unfold w'. rewrite step_Fire by exact Hatt. rewrite E. cbn [handler_of String.eqb].
    simpl. rewrite Ha. now apply _onDown_touchstart_discarded. }
  assert (Hatt1 : attached (with_this (register e) w)).
  { unfold attached in *; simpl.
    now destruct (register_frame e (this w)) as (_ & _ & _ & _ & -> & _). }
  rewrite Hw'. repeat split.
  - intros He. destruct (detach_listeners _ _ _ _ l Hatt1 H) as (k & h & Hk & Hne).
    rewrite He in Hk. inversion Hk. congruence.
  - intros He. destruct (detach_listeners _ _ _ _ l Hatt1 H) as (k & h & Hk & Hne).
    rewrite He in Hk. inversion Hk. congruence.
  - intros He. destruct (detach_listeners _ _ _ _ l Hatt1 H) as (k & h & Hk & Hne).
    rewrite He in Hk. inversion Hk. congruence.
Qed.

Lemma touchstart_after_pointerdown_discarded_witness :
  let m := eventMatrix all_families all_families in
  let w := run m (new_Tap m (Some (element 0))) [Fire (pointer_event "pointerdown" 10 20)] in
  let w' := step m w (Fire (touch_event "touchstart" 10 20)) in
  touch (active (this w)) = true /\
  touch (active (this w')) = false /\
  (forall l, In l (el_listeners w') ->
             fst l <> "touchstart" /\ fst l <> "touchmove" /\ fst l <> "touchend") /\
  trace w' = trace w.
Proof.
  split; [reflexivity|].
  apply (touchstart_after_pointerdown_discarded all_families all_families
           (Some (element 0)) [] (pointer_event "pointerdown" 10 20) []
           (touch_event "touchstart" 10 20)); reflexivity.
Defined.

(** C2.  After a [pointerdown] or a [touchstart] has been ingested, a
    [mousedown] that finds the mouse family still active detaches the
    mouse listeners, clears [active.mouse], and publishes nothing. *)
Theorem mousedown_after_pointer_or_touch_discarded
    (tests enableds : Flags) (el : option Target)
    (ops1 : list Op) (e0 : DomEvent) (ops2 : list Op) (e : DomEvent) :
  let m := eventMatrix tests enableds in
  let w0 := run m (new_Tap m el) ops1 in
  let w := run m w0 (Fire e0 :: ops2) in
  let w' := step m w (Fire e) in
  (type e0 = "pointerdown" /\ pointer (active (this w0)) = true) \/
  (type e0 = "touchstart" /\ touch (active (this w0)) = true) ->
  type e = "mousedown" -> mouse (active (this w)) = true ->
  mouse (active (this w')) = false /\
  (forall l, In l (el_listeners w') ->
             fst l <> "mousedown" /\ fst l <> "mousemove" /\ fst l <> "mouseup") /\
  trace w' = trace w.
Proof.
  intros m w0 w w' H0 E Ha. subst m.
  assert (Hatt : attached w) by apply run_attached, reachable_attached.
  assert (Hr : pointer (registered (this w)) || touch (registered (this w)) = true).
  { apply orb_true_iff. destruct H0 as [[E0 Ha0] | [E0 Ha0]]; [left | right].
    - apply (ingested_registered tests enableds el ops1 e0 ops2 EventTypes.pointer); auto.
      now rewrite E0.
    - apply (ingested_registered tests enableds el ops1 e0 ops2 EventTypes.touch); auto.
      now rewrite E0. }
  assert (Hw' : w' = detach (eventMatrix tests enableds) EventTypes.mouse
                     (with_this (register e) w)).
  { unfold w'. rewrite step_Fire by exact Hatt. rewrite E. cbn [handler_of String.eqb].
    simpl. rewrite Ha. now apply _onDown_mousedown_discarded. }
  assert (Hatt1 : attached (with_this (register e) w)).
  { unfold attached in *; simpl.
    now destruct (register_frame e (this w)) as (_ & _ & _ & _ & -> & _). }
  rewrite Hw'. repeat split;
    intros He; destruct (detach_listeners _ _ _ _ l Hatt1 H) as (k & h & Hk & Hne);
    rewrite He in Hk; inversion Hk; congruence.
Qed.

Lemma mousedown_after_pointer_or_touch_discarded_witness :
  let m := eventMatrix all_families all_families in
  let w := run m (new_Tap m (Some (element 0))) [Fire (touch_event "touchstart" 10 20)] in
  let w' := step m w (Fire (mouse_event "mousedown" 10 20)) in
  mouse (active (this w)) = true /\
  mouse (active (this w')) = false /\
  (forall l, In l (el_listeners w') ->
             fst l <> "mousedown" /\ fst l <> "mousemove" /\ fst l <> "mouseup") /\
  trace w' = trace w.
Proof.
  split; [reflexivity|].
  apply (mousedown_after_pointer_or_touch_discarded all_families all_families
           (Some (element 0)) [] (touch_event "touchstart" 10 20) []
           (mouse_event "mousedown" 10 20));
    [right; split; reflexivity | reflexivity | reflexivity].
Defined.

(** C3 as stated fails: right after a [pointerdown] on a device where
    all three families are attached, pointer is registered and both
    touch and mouse are still active. *)
Lemma pointer_registered_both_still_active :
  let m := eventMatrix all_families all_families in
  let w := run m (new_Tap m (Some (element 0))) [Fire (pointer_event "pointerdown" 10 20)] in
  pointer (registered (this w)) = true /\
  ~ at_most_one_of_touch_mouse (this w).
Proof.
  split; [reflexivity|]. unfold at_most_one_of_touch_mouse. intros H. apply H.
  split; reflexivity.
Qed.

(** C3, amended.  Once pointer is registered, touch and mouse are
    deactivated one at a time, each by the next down event of its own
    family: after a [touchstart] is dispatched the touch family is
    inactive, after a [mousedown] the mouse family is, and both stay
    so whatever happens next. *)
Theorem pointer_registered_deactivates_on_next_down
    (tests enableds : Flags) (el : option Target)
    (ops : list Op) (e : DomEvent) (ops' : list Op) :
  let m := eventMatrix tests enableds in
  let w := run m (new_Tap m el) ops in
  let w'' := run m (step m w (Fire e)) ops' in
  pointer (registered (this w)) = true ->
  (type e = "touchstart" -> touch (active (this w'')) = false) /\
  (type e = "mousedown" -> mouse (active (this w'')) = false).
Proof.
  intros m w w'' Hr. subst m.
  assert (Hatt : attached w) by apply reachable_attached.
  assert (Hatt' : attached (step (eventMatrix tests enableds) w (Fire e)))
    by now apply step_attached.
  destruct (run_flags tests enableds ops' _ Hatt') as [_ Hanti].
  fold w'' in Hanti.
  split; intros E.
  - apply not_true_is_false. intros Ha''.
    apply (Hanti EventTypes.touch) in Ha''. revert Ha''.
    rewrite step_Fire by exact Hatt. rewrite E. cbn [handler_of String.eqb]. simpl.
    destruct (touch (active (this w))) eqn:Ha; [|congruence].
    rewrite _onDown_touchstart_discarded by assumption. discriminate.
  - apply not_true_is_false. intros Ha''.
    apply (Hanti EventTypes.mouse) in Ha''. revert Ha''.
    rewrite step_Fire by exact Hatt. rewrite E. cbn [handler_of String.eqb]. simpl.
    destruct (mouse (active (this w))) eqn:Ha; [|congruence].
    rewrite _onDown_mousedown_discarded; [discriminate | assumption..|].
    now rewrite Hr.
Qed.

Lemma pointer_registered_deactivates_on_next_down_witness :
  let m := eventMatrix all_families all_families in
  let w := run m (new_Tap m (Some (element 0))) [Fire (pointer_event "pointerdown" 10 20)] in
  let w'' := run m (step m w (Fire (touch_event "touchstart" 10 20)))
               [Fire (touch_event "touchmove" 11 20)] in
  pointer (registered (this w)) = true /\
  (type (touch_event "touchstart" 10 20) = "touchstart" ->
   touch (active (this w'')) = false) /\
  (type (touch_event "touchstart" 10 20) = "mousedown" ->
   mouse (active (this w'')) = false).
Proof.
  split; [reflexivity|].
  apply (pointer_registered_deactivates_on_next_down all_families all_families
           (Some (element 0)) [Fire (pointer_event "pointerdown" 10 20)]
           (touch_event "touchstart" 10 20) [Fire (touch_event "touchmove" 11 20)]).
  reflexivity.
Defined.

(* ------------------------------------------------------------------ *)
(** * The [isDown] flag over one gesture *)

Lemma handler_of_family k :
  handler_of (down (family_events k)) = Some (k, onDown) /\
  handler_of (move (family_events k)) = Some (k, onMove) /\
  handler_of (up (family_events k)) = Some (k, onUp).
Proof. destruct k; repeat split. Qed.

Lemma step_not_Fire_isDown matrix w o :
  is_Fire o = false -> _isDown (this (step matrix w o)) = _isDown (this w).
Proof.
  destruct o; try discriminate; intros _; try reflexivity;
    try (destruct h; reflexivity).
  - unfold step. cbn [perform]. unfold exec, pointerlockchange.
    now rewrite forEach_call_doc_listener.
  - lock_call w; reflexivity.
  - lock_call w; reflexivity.
Qed.

Lemma run_states_not_Fire_isDown matrix b ops : forall w,
  forallb (fun o => negb (is_Fire o)) ops = true ->
  _isDown (this w) = b ->
  Forall (fun w' => _isDown (this w') = b) (run_states matrix w ops).
Proof.
  induction ops as [|o ops IH]; intros w Hops Hw; simpl.
  - now constructor.
  - simpl in Hops. apply andb_true_iff in Hops as [Ho Hops].
    constructor; [exact Hw|]. apply IH; [exact Hops|].
    rewrite step_not_Fire_isDown; [exact Hw|]. now destruct (is_Fire o).
Qed.

Lemma _onMove_keeps e w :
  _isDown (this (exec (_onMove e) w)) = _isDown (this w) /\
  active (this (exec (_onMove e) w)) = active (this w).
Proof.
  rewrite _onMove_spec. simpl.
  now destruct (set__position_frame (calc e w) (this w)) as (_ & _ & -> & _ & -> & _).
Qed.

Lemma moves_keep_down tests enableds k moves : forall w,
  attached w ->
  get_flag (active (this w)) k = true ->
  _isDown (this w) = true ->
  Forall (fun e => type e = move (family_events k)) moves ->
  let m := eventMatrix tests enableds in
  Forall (fun w' => _isDown (this w') = true) (run_states m w (map Fire moves)) /\
  attached (run m w (map Fire moves)) /\
  get_flag (active (this (run m w (map Fire moves)))) k = true.
Proof.
  induction moves as [|e moves IH]; intros w Hatt Ha Hd Hm; cbv zeta; simpl.
  - repeat split; auto.
  - inversion Hm as [|? ? He Hm']; subst.
    assert (Hstep : step (eventMatrix tests enableds) w (Fire e) = exec (_onMove e) w).
    { rewrite step_Fire by exact Hatt. rewrite He.
      rewrite (proj1 (proj2 (handler_of_family k))). now rewrite Ha. }
    destruct (_onMove_keeps e w) as [Hd' Ha'].
    destruct (IH (step (eventMatrix tests enableds) w (Fire e))) as (H1 & H2 & H3); auto.
    + now apply step_attached.
    + now rewrite Hstep, Ha'.
    + now rewrite Hstep, Hd'.
Qed.

(** C4.  One gesture of family [k] (a down that is not discarded, any
    number of moves, an up): [isDown] holds in every state from after
    the down until before the up, and not after the up; when no DOM event
    came before the down, it does not hold in any earlier state
    either. *)
Theorem isDown_strictly_between_down_and_up
    (tests enableds : Flags) (el : option Target) (pre : list Op)
    (k : EventTypes.t) (d : DomEvent) (moves : list DomEvent) (u : DomEvent) :
  let m := eventMatrix tests enableds in
  let w0 := run m (new_Tap m el) pre in
  let w1 := step m w0 (Fire d) in
  let wn := run m w1 (map Fire moves) in
  get_flag (active (this w0)) k = true ->
  type d = down (family_events k) ->
  Forall (fun e => type e = move (family_events k)) moves ->
  type u = up (family_events k) ->
  fst (_removeDuplicates m d w0) = true ->
  (forallb (fun o => negb (is_Fire o)) pre = true ->
   Forall (fun w => _isDown (this w) = false) (run_states m (new_Tap m el) pre)) /\
  Forall (fun w => _isDown (this w) = true) (run_states m w1 (map Fire moves)) /\
  _isDown (this (step m wn (Fire u))) = false.
Proof.
  intros m w0 w1 wn Ha Ed Em Eu Hp. subst m.
  assert (Hatt0 : attached w0) by apply reachable_attached.
  split.
  { intros Hpre. apply run_states_not_Fire_isDown; [exact Hpre|].
    now rewrite new_Tap_spec. }
  assert (H1 : w1 = publish "down"
                 {| position := calc d w0; event := d; dragging := None |}
                 (with_this (fun t => set__position (calc d w0)
                                        (set_isDown true (register d t))) w0)).
  { unfold w1. rewrite step_Fire by exact Hatt0. rewrite Ed.
    rewrite (proj1 (handler_of_family k)), Ha. cbn [call_handler].
    destruct (_onDown_cases tests enableds d w0) as [(_ & ->) | (Hf & _)];
      [reflexivity | congruence]. }
  assert (Hatt1 : attached w1) by (unfold w1; now apply step_attached).
  assert (Hd1 : _isDown (this w1) = true).
  { rewrite H1. simpl.
    now destruct (set__position_frame (calc d w0) (set_isDown true (register d (this w0))))
      as (_ & _ & -> & _). }
  assert (Ha1 : get_flag (active (this w1)) k = true).
  { rewrite H1. simpl.
    destruct (set__position_frame (calc d w0) (set_isDown true (register d (this w0))))
      as (_ & _ & _ & _ & -> & _). simpl.
    now destruct (register_frame d (this w0)) as (_ & _ & _ & _ & -> & _). }
  destruct (moves_keep_down tests enableds k moves w1 Hatt1 Ha1 Hd1 Em)
    as (Hbetween & Hattn & Han).
  split; [exact Hbetween|].
  unfold wn. rewrite step_Fire by exact Hattn. rewrite Eu.
  rewrite (proj2 (proj2 (handler_of_family k))), Han. cbn [call_handler].
  rewrite _onUp_spec. simpl.
  now destruct (set__position_frame
                  (calc u (run (eventMatrix tests enableds) w1 (map Fire moves)))
                  (set_isDown false
                     (this (run (eventMatrix tests enableds) w1 (map Fire moves)))))
    as (_ & _ & -> & _).
Qed.

Lemma isDown_strictly_between_down_and_up_witness :
  let m := eventMatrix mouse_only all_families in
  let w0 := run m (new_Tap m (Some (element 0))) [OnDown 1; Pause] in
  let w1 := step m w0 (Fire (mouse_event "mousedown" 10 20)) in
  let moves := [mouse_event "mousemove" 11 21; mouse_event "mousemove" 12 22] in
  let wn := run m w1 (map Fire moves) in
  Forall (fun w => _isDown (this w) = false)
    (run_states m (new_Tap m (Some (element 0))) [OnDown 1; Pause]) /\
  Forall (fun w => _isDown (this w) = true) (run_states m w1 (map Fire moves)) /\
  _isDown (this (step m wn (Fire (mouse_event "mouseup" 15 25)))) = false.
Proof.
  destruct (isDown_strictly_between_down_and_up mouse_only all_families
              (Some (element 0)) [OnDown 1; Pause] EventTypes.mouse
              (mouse_event "mousedown" 10 20)
              [mouse_event "mousemove" 11 21; mouse_event "mousemove" 12 22]
              (mouse_event "mouseup" 15 25))
    as (H0 & H1 & H2);
    [ reflexivity | reflexivity | repeat constructor | reflexivity | reflexivity | ].
  split; [apply H0; reflexivity | split; [exact H1 | exact H2]].
Defined.

(* ------------------------------------------------------------------ *)
(** * Position *)

(** With pointer lock off, [_calcPosition] takes the first touch point,
    else the client coordinates when [clientX] is truthy, else the
    current position. *)
Lemma calc_unlocked e w :
  pointerLockElement w = false ->
  calc e w
  = match touches e with
    | Some (t0 :: _) => {| x := num (pageX t0); y := num (pageY t0) |}
    | _ => if truthy (clientX e)
           then {| x := clientX e; y := clientY e |}
           else {| x := x (_currentPosition (this w)); y := y (_currentPosition (this w)) |}
    end.
Proof.
  unfold calc, _calcPosition, bind, get_this, isLocked, update_this, ret; simpl.
  intros ->. destruct (touches e) as [[|t0 ?]|]; simpl; auto;
    destruct (truthy (clientX e)); reflexivity.
Qed.

Lemma calc_locked e w :
  pointerLockElement w = true ->
  calc e w = {| x := movementX e; y := movementY e |}.
Proof.
  unfold calc, _calcPosition, bind, get_this, isLocked, update_this, ret; simpl.
  now intros ->.
Qed.

(** Off the value 0 the code computes the position as specified. *)
Lemma calc_unlocked_as_claimed e w :
  pointerLockElement w = false ->
  clientX e <> num 0 ->
  calc e w = claimed_position e (_currentPosition (this w)).
Proof.
  intros Hl Hx. rewrite calc_unlocked by exact Hl. unfold claimed_position.
  destruct (touches e) as [[|t0 ?]|]; auto;
    (destruct (clientX e) as [|z] eqn:E; simpl;
     [ now destruct (_currentPosition (this w))
     | destruct (Z.eqb_spec z 0); [subst; congruence | reflexivity] ]).
Qed.

(** C5, at the failing input.  A mouse sits at (10, 20) after a
    [mousedown]; a [mousemove] to the left edge, client coordinates
    (0, 50), is published with the old position (10, 20) and not with
    (0, 50): a [clientX] that is present but 0 is taken for a missing
    one. *)
Theorem clientX_zero_publishes_stale_position :
  let m := eventMatrix mouse_only all_families in
  let w := run m (new_Tap m (Some (element 0))) [Fire (mouse_event "mousedown" 10 20)] in
  let e := mouse_event "mousemove" 0 50 in
  pointerLockElement w = false /\
  touches e = None /\ clientX e = num 0 /\ clientY e = num 50 /\
  claimed_position e (_currentPosition (this w)) = {| x := num 0; y := num 50 |} /\
  calc e w = {| x := num 10; y := num 20 |} /\
  outputs_of (dispatchEvent m e) w
  = [Emitted "move" {| position := {| x := num 10; y := num 20 |}; event := e;
                       dragging := Some true |}] /\
  _currentPosition (this (step m w (Fire e))) = {| x := num 10; y := num 20 |}.
Proof. repeat split. Qed.

(** C8.  [set _position]: a coordinate equal to the current one leaves
    both positions alone; any other coordinate shifts the current
    position into [lastPosition] and becomes the current one. *)
Theorem position_setter_updates_only_on_change (p : Position) (t : Tap) :
  (x p = x (_currentPosition t) /\ y p = y (_currentPosition t) ->
   _currentPosition (set__position p t) = _currentPosition t /\
   _lastPosition (set__position p t) = _lastPosition t) /\
  (~ (x p = x (_currentPosition t) /\ y p = y (_currentPosition t)) ->
   _lastPosition (set__position p t) = _currentPosition t /\
   _currentPosition (set__position p t) = p).
Proof.
  unfold set__position.
  destruct (strict_eq_spec (x p) (x (_currentPosition t))) as [Hx|Hx];
    destruct (loose_eq_spec (y p) (y (_currentPosition t))) as [Hy|Hy]; simpl;
    split; intros H; try (split; reflexivity); tauto.
Qed.

Lemma position_setter_updates_only_on_change_witness :
  let t := this (new_Tap (eventMatrix mouse_only all_families) None) in
  (_currentPosition (set__position {| x := num (-1); y := num (-1) |} t)
   = _currentPosition t /\
   _lastPosition (set__position {| x := num (-1); y := num (-1) |} t)
   = _lastPosition t) /\
  (_lastPosition (set__position {| x := num 3; y := num (-1) |} t) = _currentPosition t /\
   _currentPosition (set__position {| x := num 3; y := num (-1) |} t)
   = {| x := num 3; y := num (-1) |}).
Proof.
  split.
  - apply (position_setter_updates_only_on_change {| x := num (-1); y := num (-1) |}).
    split; reflexivity.
  - apply (position_setter_updates_only_on_change {| x := num 3; y := num (-1) |}).
    simpl. intros [H _]. discriminate H.
Defined.

(* ------------------------------------------------------------------ *)
(** * What a handler publishes *)

Lemma skipn_length_app {A : Type} (l os : list A) :
  skipn (List.length l) (l ++ os) = os.
Proof. induction l as [|a l IH]; simpl; auto. Qed.

Lemma outputs_of_trace {A : Type} (c : M A) w os :
  trace (exec c w) = trace w ++ os -> outputs_of c w = os.
Proof. unfold outputs_of; intros ->. apply skipn_length_app. Qed.

Lemma emit_outputs_ext t1 t2 key data :
  _events t1 = _events t2 -> _isPaused t1 = _isPaused t2 ->
  domElement t1 = domElement t2 ->
  emit_outputs t1 key data = emit_outputs t2 key data.
Proof. unfold emit_outputs, emit_pure; now intros -> -> ->. Qed.

Lemma call_handler_trace tests enableds h e w :
  let m := eventMatrix tests enableds in
  trace (exec (call_handler m h e) w) = trace w ++ handler_outputs m h e w.
Proof.
  cbv zeta. unfold handler_outputs. destruct h; cbn [call_handler].
  - destruct (_onDown_cases tests enableds e w) as [(-> & ->) | (-> & k & -> & _)].
    + pose proof (set__position_frame (calc e w) (set_isDown true (register e (this w))))
        as (E1 & E2 & _ & E4 & _).
      pose proof (register_frame e (this w)) as (F1 & F2 & _ & F4 & _).
      simpl in *. f_equal. apply emit_outputs_ext; simpl; congruence.
    + rewrite app_nil_r.
      now destruct (detach_spec tests enableds k (with_this (register e) w))
        as (_ & _ & _ & _ & _ & ->).
  - rewrite _onMove_spec.
    pose proof (set__position_frame (calc e w) (this w)) as (E1 & E2 & _ & E4 & _).
    simpl. f_equal. apply emit_outputs_ext; simpl; congruence.
  - rewrite _onUp_spec.
    pose proof (set__position_frame (calc e w) (set_isDown false (this w)))
      as (E1 & E2 & _ & E4 & _).
    simpl in *. f_equal. apply emit_outputs_ext; simpl; congruence.
Qed.

Lemma call_handler_outputs tests enableds h e w :
  let m := eventMatrix tests enableds in
  outputs_of (call_handler m h e) w = handler_outputs m h e w.
Proof. cbv zeta. apply outputs_of_trace, call_handler_trace. Qed.

(** Every output of the loop of [emit] is a call of a subscriber with
    the published payload, a lock request, or the [TypeError]. *)
Lemma emit_each_pure_In el data subscribed : forall paused ev o,
  In o (fst (emit_each_pure el data subscribed paused ev)) ->
  (exists l, In l subscribed /\ o = Called (l_fn l) data) \/
  o = RequestPointerLock el \/ o = TypeError.
Proof.
  induction subscribed as [|l rest IH]; intros paused ev o H; simpl in H;
    [contradiction|].
  assert (Hcb : In o (callback_outputs el (l_fn l) (callback_of (l_fn l)) data) ->
                (exists l0, In l0 (l :: rest) /\ o = Called (l_fn l0) data) \/
                o = RequestPointerLock el \/ o = TypeError).
  { unfold callback_outputs.
    destruct (callback_of (l_fn l)); [| destruct el |]; simpl;
      intuition (subst; eauto using in_eq). }
  assert (Hrest : forall p' ev',
             In o (fst (emit_each_pure el data rest p' ev')) ->
             (exists l0, In l0 (l :: rest) /\ o = Called (l_fn l0) data) \/
             o = RequestPointerLock el \/ o = TypeError).
  { intros p' ev' Hin. destruct (IH p' ev' o Hin) as [(l0 & Hl0 & ->) | Ho]; auto.
    left. exists l0. split; [now right | reflexivity]. }
  destruct (closure_calls paused (l_fn l)); [|eauto].
  destruct (callback_returns el (callback_of (l_fn l))); simpl in H; [|auto].
  apply in_app_or in H as [H | H]; eauto.
Qed.

Lemma emit_outputs_In t key data o :
  In o (emit_outputs t key data) ->
  o = Emitted key data \/
  (exists l, In l (_events t) /\ l_event l = key /\ o = Called (l_fn l) data) \/
  o = RequestPointerLock (domElement t) \/ o = TypeError.
Proof.
  unfold emit_outputs, emit_pure. intros [<- | H]; [now left|]. right.
  apply emit_each_pure_In in H as [(l & Hl & ->) | H]; [|now right].
  left. exists l. apply filter_In in Hl as [Hl Hk].
  apply String.eqb_eq in Hk. auto.
Qed.

Lemma emit_outputs_position t key data o p :
  In o (emit_outputs t key data) -> payload_position o = Some p -> p = position data.
Proof.
  intros H Hp. apply emit_outputs_In in H as [-> | [(l & _ & _ & ->) | [-> | ->]]];
    simpl in Hp; congruence.
Qed.

Lemma emit_outputs_Emitted t key data key' data' :
  In (Emitted key' data') (emit_outputs t key data) -> key' = key /\ data' = data.
Proof.
  intros H. apply emit_outputs_In in H as [H | [(l & _ & _ & H) | [H | H]]];
    inversion H; auto.
Qed.

Lemma emit_outputs_no_Resolved t key data q :
  ~ In (Resolved q) (emit_outputs t key data).
Proof.
  intros H. apply emit_outputs_In in H as [H | [(l & _ & _ & H) | [H | H]]];
    discriminate.
Qed.

(** C7.  While pointer lock is engaged, [_calcPosition] returns the
    movement delta of the event, and every payload the ingestion
    publishes or hands to a callback carries exactly that position. *)
Theorem locked_position_is_movement_delta
    (tests enableds : Flags) (h : Handler) (e : DomEvent) (w : World) :
  let m := eventMatrix tests enableds in
  pointerLockElement w = true ->
  calc e w = {| x := movementX e; y := movementY e |} /\
  (forall o p, In o (outputs_of (call_handler m h e) w) ->
               payload_position o = Some p ->
               p = {| x := movementX e; y := movementY e |}) /\
  (h <> onDown ->
   exists key dragging,
     In (Emitted key {| position := {| x := movementX e; y := movementY e |};
                        event := e; dragging := dragging |})
        (outputs_of (call_handler m h e) w)).
Proof.
  intros m Hl. subst m. pose proof (calc_locked e w Hl) as Hc.
  split; [exact Hc|]. rewrite call_handler_outputs; unfold handler_outputs. split.
  - intros o p Hin Hp. rewrite <- Hc.
    destruct h; [destruct (fst _); [|contradiction]| |];
      now rewrite (emit_outputs_position _ _ _ _ _ Hin Hp).
  - intros Hh. destruct h; [congruence| |]; rewrite Hc; eexists _, _; left; reflexivity.
Qed.

Lemma locked_position_is_movement_delta_witness :
  let m := eventMatrix all_families all_families in
  let w := run m (new_Tap m (Some (element 0)))
             [OnMove 7; Fire (pointer_event "pointerdown" 10 20); LockChange true] in
  let e := {| type := "pointermove"; touches := None;
              clientX := num 300; clientY := num 200;
              movementX := num 4; movementY := num (-2) |} in
  pointerLockElement w = true /\
  calc e w = {| x := num 4; y := num (-2) |} /\
  outputs_of (call_handler m onMove e) w
  = [Emitted "move" {| position := {| x := num 4; y := num (-2) |}; event := e;
                       dragging := Some true |};
     Called (on_closure (user 7))
       {| position := {| x := num 4; y := num (-2) |}; event := e;
          dragging := Some true |}].
Proof.
  split; [reflexivity|].
  split; [|reflexivity].
  apply (locked_position_is_movement_delta all_families all_families onMove).
  reflexivity.
Defined.

(* ------------------------------------------------------------------ *)
(** * Frame of a discarded down event *)

(** C10.  A down event that duplicate suppression discards belongs to
    one family [k]; ingesting it sets [registered[k]], clears
    [active[k]], removes the listeners of [k], and changes nothing
    else: [isDown], both positions, the subscribers, the trace and the
    document are as before. *)
Theorem discarded_down_changes_only_bookkeeping
    (tests enableds : Flags) (e : DomEvent) (w : World) :
  let m := eventMatrix tests enableds in
  let w' := exec (_onDown m e) w in
  fst (_removeDuplicates m e w) = false ->
  exists k,
    type e = down (family_events k) /\
    this w' = set_active (set_flag k false (active (this w)))
                (set_registered (set_flag k true (registered (this w))) (this w)) /\
    el_listeners w' = without_family k (el_listeners w) /\
    _isDown (this w') = _isDown (this w) /\
    _currentPosition (this w') = _currentPosition (this w) /\
    _lastPosition (this w') = _lastPosition (this w) /\
    trace w' = trace w /\
    doc_listeners w' = doc_listeners w /\
    settled w' = settled w /\
    pointerLockElement w' = pointerLockElement w.
Proof.
  intros m w' Hd. subst m w'.
  destruct (_onDown_cases tests enableds e w) as [(Hp & _) | (_ & k & -> & _ & Hk)];
    [congruence|].
  exists k.
  destruct Hk as [(-> & E & _) | (-> & E & _)]; unfold register; rewrite E;
    repeat split.
Qed.

Lemma discarded_down_changes_only_bookkeeping_witness :
  let m := eventMatrix all_families all_families in
  let w := run m (new_Tap m (Some (element 0)))
             [Fire (pointer_event "pointerdown" 10 20);
              Fire (pointer_event "pointerup" 12 24)] in
  let e := touch_event "touchstart" 30 40 in
  let w' := exec (_onDown m e) w in
  exists k,
    type e = down (family_events k) /\
    this w' = set_active (set_flag k false (active (this w)))
                (set_registered (set_flag k true (registered (this w))) (this w)) /\
    el_listeners w' = without_family k (el_listeners w) /\
    _isDown (this w') = _isDown (this w) /\
    _currentPosition (this w') = _currentPosition (this w) /\
    _lastPosition (this w') = _lastPosition (this w) /\
    trace w' = trace w /\
    doc_listeners w' = doc_listeners w /\
    settled w' = settled w /\
    pointerLockElement w' = pointerLockElement w.
Proof.
  apply (discarded_down_changes_only_bookkeeping all_families all_families
           (touch_event "touchstart" 30 40)).
  reflexivity.
Defined.

(* ------------------------------------------------------------------ *)
(** * Pointer-lock promises *)

Lemma handler_outputs_no_Resolved matrix h e w q :
  ~ In (Resolved q) (handler_outputs matrix h e w).
Proof.
  unfold handler_outputs.
  destruct h; [destruct (fst _); [|intros []] | |]; apply emit_outputs_no_Resolved.
Qed.

Lemma fold_settle_In ls : forall s q,
  In q (fold_left settle ls s) -> In q s \/ In (resolve q) ls.
Proof.
  induction ls as [|[p] ls IH]; intros s q H; simpl in *; auto.
  apply IH in H as [H | H]; auto.
  destruct (existsb (Nat.eqb p) s); auto.
  destruct H as [-> | H]; auto.
Qed.

Lemma map_resolved_In ls q :
  In (Resolved q) (map resolved_output ls) -> In (resolve q) ls.
Proof.
  intros H. apply in_map_iff in H as ([p] & Hp & Hin). simpl in Hp.
  now inversion Hp; subst.
Qed.

(** A step makes at most one new promise resolvable: the one it
    creates, and only a [request()] or [exit()] creates one. *)
Lemma step_resolvable tests enableds w o q :
  let m := eventMatrix tests enableds in
  attached w ->
  resolvable q (step m w o) ->
  resolvable q w \/
  (q = next_promise w /\ next_promise (step m w o) = S (next_promise w)).
Proof.
  cbv zeta. intros Hatt. unfold resolvable.
  destruct o; try (now left); try (destruct h; now left).
  - rewrite step_Fire by exact Hatt.
    destruct (handler_of (type e)) as [[k h]|]; [|now left].
    destruct (get_flag (active (this w)) k); [|now left].
    destruct (call_handler_frame tests enableds h e w) as (-> & _ & -> & _).
    rewrite call_handler_trace.
    intros [H | [H | H]]; auto.
    apply in_app_or in H as [H | H]; auto.
    now apply handler_outputs_no_Resolved in H.
  - unfold step. cbn [perform]. rewrite pointerlockchange_spec. simpl.
    intros [H | [[] | H]].
    + apply fold_settle_In in H as [H | H]; auto.
    + apply in_app_or in H as [H | H]; auto.
      apply map_resolved_In in H; auto.
  - lock_call w; [now left|].
    intros [H | [H | H]]; auto.
    apply in_app_or in H as [H | [H | []]]; auto. inversion H; auto.
  - lock_call w; [|now left].
    intros [H | [H | H]]; auto.
    + apply in_app_or in H as [H | [H | []]]; auto. inversion H; auto.
    + apply in_app_or in H as [H | [H | []]]; auto. discriminate.
Qed.

Lemma step_next_promise tests enableds w o :
  let m := eventMatrix tests enableds in
  attached w -> next_promise w <= next_promise (step m w o).
Proof.
  cbv zeta. intros Hatt. destruct o; try (simpl; lia); try (destruct h; simpl; lia).
  - rewrite step_Fire by exact Hatt.
    destruct (handler_of (type e)) as [[k h]|]; [|lia].
    destruct (get_flag (active (this w)) k); [|lia].
    destruct (call_handler_frame tests enableds h e w) as (_ & _ & _ & -> & _). lia.
  - unfold step. cbn [perform]. rewrite pointerlockchange_spec. simpl. lia.
  - lock_call w; lia.
  - lock_call w; lia.
Qed.

Lemma run_promises_wf tests enableds ops : forall w,
  let m := eventMatrix tests enableds in
  attached w -> promises_wf w -> promises_wf (run m w ops).
Proof.
  cbv zeta. induction ops as [|o ops IH]; intros w Hatt Hwf; simpl; auto.
  apply IH; [now apply step_attached|].
  intros q Hq. pose proof (step_next_promise tests enableds w o Hatt) as Hle.
  cbv zeta in Hle.
  apply step_resolvable in Hq as [Hq | [-> He]]; auto.
  - apply Hwf in Hq. lia.
  - lia.
Qed.

Lemma run_unreachable_resolver tests enableds p ops : forall w,
  let m := eventMatrix tests enableds in
  attached w -> unreachable_resolver p w -> unreachable_resolver p (run m w ops).
Proof.
  cbv zeta. induction ops as [|o ops IH]; intros w Hatt [Hn Hlt]; simpl; auto.
  - now split.
  - apply IH; [now apply step_attached|].
    pose proof (step_next_promise tests enableds w o Hatt) as Hle. cbv zeta in Hle.
    split; [|lia].
    intros Hq. apply step_resolvable in Hq as [Hq | [-> He]]; auto. lia.
Qed.

Lemma new_Tap_promises_wf tests enableds el :
  promises_wf (new_Tap (eventMatrix tests enableds) el).
Proof.
  rewrite new_Tap_spec. intros q [H | [H | H]]; simpl in H; contradiction.
Qed.

Lemma fresh_promise_unreachable w :
  promises_wf w ->
  unreachable_resolver (next_promise w) (with_next_promise (S (next_promise w)) w).
Proof.
  intros Hwf. split; [|simpl; lia].
  intros Hq. assert (H : resolvable (next_promise w) w) by exact Hq.
  apply Hwf in H. lia.
Qed.

(** C9.  [pointerLock.request()] while the lock is engaged, and
    [pointerLock.exit()] while it is not, only create the promise: no
    document listener and no subscriber is added, nothing is output,
    and afterwards, whatever happens, the promise is not settled, its
    [resolve] continuation is not called, and no listener holds it. *)
Theorem noop_lock_call_never_settles
    (tests enableds : Flags) (el : option Target) (ops later : list Op) :
  let m := eventMatrix tests enableds in
  let w := run m (new_Tap m el) ops in
  (pointerLockElement w = true ->
   let p := fst (pointerLock_request w) in
   let w' := snd (pointerLock_request w) in
   let w'' := run m w' later in
   doc_listeners w' = doc_listeners w /\
   _events (this w') = _events (this w) /\
   trace w' = trace w /\
   settled w' = settled w /\
   ~ In p (settled w') /\
   ~ In p (settled w'') /\
   ~ In (Resolved p) (trace w'') /\
   ~ In (resolve p) (doc_listeners w'')) /\
  (pointerLockElement w = false ->
   let p := fst (pointerLock_exit w) in
   let w' := snd (pointerLock_exit w) in
   let w'' := run m w' later in
   doc_listeners w' = doc_listeners w /\
   _events (this w') = _events (this w) /\
   trace w' = trace w /\
   settled w' = settled w /\
   ~ In p (settled w') /\
   ~ In p (settled w'') /\
   ~ In (Resolved p) (trace w'') /\
   ~ In (resolve p) (doc_listeners w'')).
Proof.
  intros m w. subst m.
  assert (Hatt : attached w) by apply reachable_attached.
  assert (Hwf : promises_wf w)
    by (apply run_promises_wf; [apply new_Tap_attached | apply new_Tap_promises_wf]).
  pose proof (fresh_promise_unreachable w Hwf) as Hu.
  assert (Hatt' : attached (with_next_promise (S (next_promise w)) w)) by exact Hatt.
  pose proof (run_unreachable_resolver tests enableds _ later _ Hatt' Hu) as [Hn _].
  cbv zeta in Hn.
  split; intros Hl; cbv zeta;
    unfold pointerLock_request, pointerLock_exit, bind, new_Promise, isLocked;
    simpl; rewrite Hl; simpl;
    (split; [reflexivity|]); (split; [reflexivity|]); (split; [reflexivity|]);
    (split; [reflexivity|]); (split; [|split; [|split]]); intros H.
  - apply (proj1 Hu). now left.
  - apply Hn. now left.
  - apply Hn. now right; right.
  - apply Hn. now right; left.
  - apply (proj1 Hu). now left.
  - apply Hn. now left.
  - apply Hn. now right; right.
  - apply Hn. now right; left.
Qed.

Lemma noop_lock_call_never_settles_witness :
  let m := eventMatrix all_families all_families in
  let ops := [Request; Fire (pointer_event "pointerdown" 10 20); LockChange true] in
  let later := [Fire (pointer_event "pointerdown" 11 20); LockChange false;
                LockChange true] in
  let w := run m (new_Tap m (Some (element 0))) ops in
  let p := fst (pointerLock_request w) in
  let w' := snd (pointerLock_request w) in
  let w'' := run m w' later in
  (pointerLockElement w = true /\ p = 1 /\ settled w'' = [0]) /\
  doc_listeners w' = doc_listeners w /\
  _events (this w') = _events (this w) /\
  trace w' = trace w /\
  settled w' = settled w /\
  ~ In p (settled w') /\
  ~ In p (settled w'') /\
  ~ In (Resolved p) (trace w'') /\
  ~ In (resolve p) (doc_listeners w'').
Proof.
  split; [repeat split|].
  apply (proj1 (noop_lock_call_never_settles all_families all_families
                  (Some (element 0))
                  [Request; Fire (pointer_event "pointerdown" 10 20); LockChange true]
                  [Fire (pointer_event "pointerdown" 11 20); LockChange false;
                   LockChange true])).
  reflexivity.
Defined.

(* ------------------------------------------------------------------ *)
(** * Further properties of the class *)

(** ** Construction and removal of listeners *)

Lemma family_of_table a l :
  In l (table a) <-> exists k, family_of l = Some k /\ get_flag a k = true.
Proof.
  split.
  - destruct a as [[] [] []]; simpl; intros H;
      repeat (destruct H as [<- | H];
              [ first [ exists EventTypes.touch; split; reflexivity
                      | exists EventTypes.mouse; split; reflexivity
                      | exists EventTypes.pointer; split; reflexivity ] | ]);
      contradiction.
  - intros (k & Hk & Ha). destruct l as [ty h]. unfold family_of, handler_of in Hk.
    cbn [fst snd] in Hk.
    repeat match type of Hk with
      | context [String.eqb ?s ty] =>
          let E := fresh "E" in
          destruct (String.eqb_spec s ty) as [E | E]; cbv beta iota in Hk;
          [ subst ty; destruct h; simpl in Hk; inversion Hk; subst k;
            destruct a as [[] [] []]; simpl in *; try discriminate; tauto
          | ]
      end.
    discriminate.
Qed.

(** X1.  [new Tap(el)] marks active exactly the families whose entry
    has [test && enabled], installs their three listeners and no
    other, falls back to [window] without an element, and starts not
    down, not paused, with nothing registered, nothing published and
    both positions at (-1, -1). *)
Theorem construction_attaches_supported_families
    (tests enableds : Flags) (el : option Target) :
  let w := new_Tap (eventMatrix tests enableds) el in
  (forall k, get_flag (active (this w)) k
             = get_flag tests k && get_flag enableds k) /\
  (forall l, In l (el_listeners w) <->
             exists k, family_of l = Some k /\
                       get_flag tests k && get_flag enableds k = true) /\
  domElement (this w) = match el with Some e => e | None => window end /\
  (forall k, get_flag (registered (this w)) k = false) /\
  _isDown (this w) = false /\ _isPaused (this w) = false /\
  _currentPosition (this w) = initial_position /\
  _lastPosition (this w) = initial_position /\
  _events (this w) = [] /\ trace w = [].
Proof.
  cbv zeta. rewrite new_Tap_spec. simpl.
  split; [intros []; reflexivity|].
  split; [|repeat split; intros []; reflexivity].
  intros l. rewrite family_of_table.
  split; intros (k & Hk & Hs); exists k; (split; [exact Hk|]);
    destruct k; exact Hs.
Qed.

Lemma _remove_exec tests enableds k w :
  exec (_remove (eventMatrix tests enableds) k) w
  = if get_flag (active (this w)) k then detach (eventMatrix tests enableds) k w else w.
Proof. unfold exec. now rewrite _remove_spec. Qed.

Lemma _remove_attached tests enableds k w :
  attached w -> attached (exec (_remove (eventMatrix tests enableds) k) w).
Proof.
  intros H. rewrite _remove_exec.
  destruct (get_flag (active (this w)) k); [now apply detach_attached | exact H].
Qed.

Lemma _remove_active tests enableds k w :
  active (this (exec (_remove (eventMatrix tests enableds) k) w))
  = set_flag k false (active (this w)).
Proof.
  rewrite _remove_exec. destruct (get_flag (active (this w)) k) eqn:Ha.
  - now rewrite (proj1 (detach_spec tests enableds k w)).
  - destruct k, (active (this w)) as [? ? ?]; simpl in *; now subst.
Qed.

(** X2.  [_remove(k)] on a state whose listeners agree with [active]:
    afterwards [k] is inactive, the other flags are as before, exactly
    the listeners of [k] are gone, and a second [_remove(k)] changes
    nothing. *)
Theorem remove_detaches_exactly_one_family
    (tests enableds : Flags) (k : EventTypes.t) (w : World) :
  let m := eventMatrix tests enableds in
  let w' := exec (_remove m k) w in
  attached w ->
  get_flag (active (this w')) k = false /\
  (forall k', k' <> k ->
              get_flag (active (this w')) k' = get_flag (active (this w)) k') /\
  (forall l, In l (el_listeners w') <->
             In l (el_listeners w) /\ family_of l <> Some k) /\
  attached w' /\
  exec (_remove m k) w' = w'.
Proof.
  intros m w' Hatt. subst m w'.
  pose proof (_remove_attached tests enableds k w Hatt) as Hatt'.
  pose proof (_remove_active tests enableds k w) as Ha.
  split; [rewrite Ha; now destruct k|].
  split; [intros k' Hne; rewrite Ha; destruct k, k'; simpl; congruence|].
  split; [|split; [exact Hatt'|]].
  - intros l. rewrite Hatt', Hatt, Ha, !family_of_table. split.
    + intros (k' & Hk & Hf). split.
      * exists k'. split; [exact Hk|].
        destruct k, k', (active (this w)) as [? ? ?]; simpl in *; congruence.
      * rewrite Hk. intros E. inversion E; subst k'.
        destruct k; simpl in Hf; discriminate.
    + intros [(k' & Hk & Hf) Hne]. exists k'. split; [exact Hk|].
      assert (k' <> k) by congruence.
      destruct k, k', (active (this w)) as [? ? ?]; simpl in *; congruence.
  - rewrite (_remove_exec tests enableds k
               (exec (_remove (eventMatrix tests enableds) k) w)), Ha.
    now destruct k.
Qed.

Lemma remove_detaches_exactly_one_family_witness :
  let m := eventMatrix all_families all_families in
  let w := new_Tap m (Some (element 0)) in
  let w' := exec (_remove m EventTypes.mouse) w in
  get_flag (active (this w')) EventTypes.mouse = false /\
  (forall k', k' <> EventTypes.mouse ->
              get_flag (active (this w')) k' = get_flag (active (this w)) k') /\
  (forall l, In l (el_listeners w') <->
             In l (el_listeners w) /\ family_of l <> Some EventTypes.mouse) /\
  attached w' /\
  exec (_remove m EventTypes.mouse) w' = w'.
Proof.
  apply (remove_detaches_exactly_one_family all_families all_families
           EventTypes.mouse).
  reflexivity.
Defined.

(** ** Delivery *)

(** X3.  A DOM event whose type is none of the nine names of the
    event matrix, or belongs to a family that is not active, reaches
    no handler: the state is exactly as before. *)
Theorem event_without_listener_is_ignored
    (tests enableds : Flags) (el : option Target) (ops : list Op) (e : DomEvent) :
  let m := eventMatrix tests enableds in
  let w := run m (new_Tap m el) ops in
  (handler_of (type e) = None \/
   exists k h, handler_of (type e) = Some (k, h) /\
               get_flag (active (this w)) k = false) ->
  step m w (Fire e) = w.
Proof.
  intros m w H. subst m. rewrite step_Fire by apply reachable_attached.
  destruct H as [-> | (k & h & -> & Ha)]; [reflexivity|].
  fold w. now rewrite Ha.
Qed.

Lemma event_without_listener_is_ignored_witness :
  let m := eventMatrix all_families all_families in
  let w := run m (new_Tap m (Some (element 0)))
             [Fire (pointer_event "pointerdown" 10 20);
              Fire (touch_event "touchstart" 10 20)] in
  step m w (Fire (touch_event "touchmove" 30 40)) = w /\
  step m w (Fire (mouse_event "click" 30 40)) = w.
Proof.
  split.
  - apply (event_without_listener_is_ignored all_families all_families
             (Some (element 0))
             [Fire (pointer_event "pointerdown" 10 20);
              Fire (touch_event "touchstart" 10 20)]
             (touch_event "touchmove" 30 40)).
    right. exists EventTypes.touch, onMove. split; reflexivity.
  - apply (event_without_listener_is_ignored all_families all_families
             (Some (element 0))
             [Fire (pointer_event "pointerdown" 10 20);
              Fire (touch_event "touchstart" 10 20)]
             (mouse_event "click" 30 40)).
    left. reflexivity.
Defined.

(** X4.  [_removeDuplicates] discards a down event in exactly two
    situations: a [touchstart] while touch is active and pointer is
    registered, and a [mousedown] while mouse is active and pointer or
    touch is registered.  Every other event, a [pointerdown] in
    particular, proceeds. *)
Theorem down_discarded_iff
    (tests enableds : Flags) (e : DomEvent) (w : World) :
  fst (_removeDuplicates (eventMatrix tests enableds) e w) = false <->
  (type e = "touchstart" /\ touch (active (this w)) = true /\
   pointer (registered (this w)) = true) \/
  (type e = "mousedown" /\ mouse (active (this w)) = true /\
   (pointer (registered (this w)) = true \/ touch (registered (this w)) = true)).
Proof.
  split.
  - intros H.
    destruct (_removeDuplicates_cases tests enableds e w)
      as [Hp | (k & _ & Ha & [(-> & E & Hr) | (-> & E & Hr)])].
    + rewrite Hp in H. discriminate.
    + left. auto.
    + right. apply orb_true_iff in Hr. auto.
  - intros [(E & Ha & Hr) | (E & Ha & Hr)].
    + destruct (_onDown_cases tests enableds e w) as [(Hp & _) | (Hf & _)]; auto.
      exfalso. rewrite _removeDuplicates_spec in Hp. cbv zeta in Hp. simpl in Hp.
      destruct (register_frame e (this w)) as (_ & _ & _ & _ & Hact & _).
      rewrite Hact, E, Ha in Hp. simpl in Hp.
      rewrite (register_monotone e (this w) EventTypes.pointer Hr : pointer _ = true)
        in Hp.
      discriminate.
    + destruct (_onDown_cases tests enableds e w) as [(Hp & _) | (Hf & _)]; auto.
      exfalso. rewrite _removeDuplicates_spec in Hp. cbv zeta in Hp. simpl in Hp.
      destruct (register_frame e (this w)) as (_ & _ & _ & _ & Hact & _).
      rewrite Hact, E, Ha in Hp. simpl in Hp.
      assert (Hr' : pointer (registered (register e (this w)))
                    || touch (registered (register e (this w))) = true).
      { apply orb_true_iff. destruct Hr as [Hr|Hr]; [left|right].
        - exact (register_monotone e (this w) EventTypes.pointer Hr).
        - exact (register_monotone e (this w) EventTypes.touch Hr). }
      rewrite Hr' in Hp. discriminate.
Qed.

(** ** The transition system on flags and positions *)

Lemma handler_of_inv ty k h :
  handler_of ty = Some (k, h) ->
  ty = match h with
       | onDown => down (family_events k)
       | onMove => move (family_events k)
       | onUp => up (family_events k)
       end.
Proof.
  unfold handler_of. intros H.
  repeat match type of H with
    | context [String.eqb ?s ty] =>
        let E := fresh "E" in
        destruct (String.eqb_spec s ty) as [E | E]; cbv beta iota in H;
        [ inversion H; subst; reflexivity | ]
    end.
  discriminate.
Qed.

Lemma register_down e k t :
  type e = down (family_events k) ->
  register e t = set_registered (set_flag k true (registered t)) t.
Proof. unfold register. intros ->. now destruct k. Qed.

Lemma set__position_ext p t1 t2 :
  _currentPosition t1 = _currentPosition t2 ->
  _lastPosition t1 = _lastPosition t2 ->
  _currentPosition (set__position p t1) = _currentPosition (set__position p t2) /\
  _lastPosition (set__position p t1) = _lastPosition (set__position p t2).
Proof.
  unfold set__position. intros Hc Hl. rewrite Hc. destruct (_ && _); simpl; auto.
Qed.

Lemma step_not_Fire_frame matrix w o :
  is_Fire o = false ->
  _isDown (this (step matrix w o)) = _isDown (this w) /\
  active (this (step matrix w o)) = active (this w) /\
  registered (this (step matrix w o)) = registered (this w) /\
  _currentPosition (this (step matrix w o)) = _currentPosition (this w) /\
  _lastPosition (this (step matrix w o)) = _lastPosition (this w).
Proof.
  destruct o; try discriminate; intros _; try (repeat split; reflexivity);
    try (destruct h; repeat split; reflexivity).
  - unfold step. cbn [perform]. unfold exec, pointerlockchange.
    rewrite forEach_call_doc_listener. repeat split.
  - lock_call w; repeat split.
  - lock_call w; repeat split.
Qed.

(** One step from a state whose listeners agree with [active] does one
    of three things to the flags and positions: nothing; what a
    published down, move or up of an active family does; or what a
    discarded down does. *)
Lemma step_cases tests enableds w o :
  let m := eventMatrix tests enableds in
  let w' := step m w o in
  let t := this w in
  let t' := this w' in
  attached w ->
  (_isDown t' = _isDown t /\ active t' = active t /\ registered t' = registered t /\
   _currentPosition t' = _currentPosition t /\ _lastPosition t' = _lastPosition t) \/
  (exists e k h,
      o = Fire e /\ handler_of (type e) = Some (k, h) /\
      get_flag (active t) k = true /\
      active t' = active t /\
      registered t' = match h with
                      | onDown => set_flag k true (registered t)
                      | _ => registered t
                      end /\
      _isDown t' = match h with
                   | onDown => true
                   | onMove => _isDown t
                   | onUp => false
                   end /\
      _currentPosition t' = _currentPosition (set__position (calc e w) t) /\
      _lastPosition t' = _lastPosition (set__position (calc e w) t)) \/
  (exists e k,
      o = Fire e /\ type e = down (family_events k) /\
      get_flag (active t) k = true /\
      ((k = EventTypes.touch /\ pointer (registered t) = true) \/
       (k = EventTypes.mouse /\
        (pointer (registered t) = true \/ touch (registered t) = true))) /\
      active t' = set_flag k false (active t) /\
      registered t' = set_flag k true (registered t) /\
      _isDown t' = _isDown t /\
      _currentPosition t' = _currentPosition t /\ _lastPosition t' = _lastPosition t).
Proof.
  intros m w' t t' Hatt. subst m w' t t'.
  destruct (is_Fire o) eqn:Ho;
    [|left; now apply step_not_Fire_frame].
  destruct o as [e| | | | | | | | | | | | |]; try discriminate.
  rewrite step_Fire by exact Hatt.
  destruct (handler_of (type e)) as [[k h]|] eqn:Hh; [|left; repeat split].
  destruct (get_flag (active (this w)) k) eqn:Ha; [|left; repeat split].
  pose proof (handler_of_inv _ _ _ Hh) as Hty.
  destruct h; cbn [call_handler].
  - destruct (_onDown_cases tests enableds e w)
      as [(_ & ->) | (_ & k' & -> & Ha' & Hk')].
    + right; left. exists e, k, onDown. repeat split; auto; simpl.
      * now destruct (set__position_frame (calc e w)
                        (set_isDown true (register e (this w))))
          as (_ & _ & _ & _ & -> & _); rewrite (register_down e k _ Hty).
      * destruct (set__position_frame (calc e w)
                    (set_isDown true (register e (this w))))
          as (_ & _ & _ & _ & _ & ->).
        now rewrite (register_down e k _ Hty).
      * now destruct (set__position_frame (calc e w)
                        (set_isDown true (register e (this w))))
          as (_ & _ & -> & _).
      * apply set__position_ext; simpl; now rewrite (register_down e k _ Hty).
      * apply set__position_ext; simpl; now rewrite (register_down e k _ Hty).
    + right; right. exists e, k.
      assert (k' = k) as ->.
      { destruct Hk' as [(-> & E & _) | (-> & E & _)]; rewrite E in Hty;
          destruct k; simpl in Hty; congruence. }
      rewrite (proj1 (detach_spec tests enableds k (with_this (register e) w))).
      simpl. rewrite (register_down e k _ Hty). simpl.
      repeat split; auto.
      destruct Hk' as [(-> & _ & Hr) | (-> & _ & Hr)]; [left | right]; split; auto.
      now apply orb_true_iff in Hr.
  - right; left. exists e, k, onMove. rewrite _onMove_spec. simpl.
    destruct (set__position_frame (calc e w) (this w))
      as (_ & _ & -> & _ & -> & ->).
    repeat split; auto.
  - right; left. exists e, k, onUp. rewrite _onUp_spec. simpl.
    destruct (set__position_frame (calc e w) (set_isDown false (this w)))
      as (_ & _ & -> & _ & -> & ->).
    repeat split; auto; apply set__position_ext; reflexivity.
Qed.

Lemma run_invariant tests enableds (P : World -> Prop) :
  let m := eventMatrix tests enableds in
  (forall w o, attached w -> P w -> P (step m w o)) ->
  forall ops w, attached w -> P w -> P (run m w ops).
Proof.
  cbv zeta. intros Hstep ops.
  induction ops as [|o ops IH]; intros w Hatt Hw; simpl; auto.
  apply IH; [now apply step_attached | now apply Hstep].
Qed.

Lemma precedence_initial sup :
  precedence sup sup {| touch := false; mouse := false; pointer := false |}.
Proof.
  unfold precedence. repeat split; auto; try (intros []; discriminate);
    congruence.
Qed.

Lemma precedence_published sup a r k :
  get_flag a k = true -> precedence sup a r -> precedence sup a (set_flag k true r).
Proof.
  unfold precedence. intros Ha (H1 & H2 & H3 & H4 & H5).
  pose proof (H1 k Ha) as Hs.
  split; [exact H1|]. split; [|split; [exact H3|split]].
  - intros k' Hk'. destruct (EventTypes.eqb k' k) eqn:E.
    + destruct k, k'; try discriminate; exact Hs.
    + apply H2. destruct k, k'; simpl in *; try discriminate; exact Hk'.
  - intros Hsup Hoff. destruct (H4 Hsup Hoff) as [Ht Hp].
    destruct k; simpl; auto.
  - intros Hsup Hoff. destruct (H5 Hsup Hoff) as [Hm Hpt].
    destruct k; simpl; auto.
Qed.

Lemma precedence_discarded sup a r k :
  get_flag a k = true ->
  (k = EventTypes.touch /\ pointer r = true) \/
  (k = EventTypes.mouse /\ (pointer r = true \/ touch r = true)) ->
  precedence sup a r ->
  precedence sup (set_flag k false a) (set_flag k true r).
Proof.
  unfold precedence. intros Ha Hk (H1 & H2 & H3 & H4 & H5).
  pose proof (H1 k Ha) as Hs.
  split; [|split; [|split; [|split]]].
  - intros k' Hk'. apply H1. destruct k, k'; simpl in *; try discriminate; exact Hk'.
  - intros k' Hk'. destruct (EventTypes.eqb k' k) eqn:E.
    + destruct k, k'; try discriminate; exact Hs.
    + apply H2. destruct k, k'; simpl in *; try discriminate; exact Hk'.
  - destruct Hk as [(-> & _) | (-> & _)]; exact H3.
  - intros Hsup Hoff. destruct Hk as [(-> & Hp) | (-> & Hp)]; simpl in *.
    + auto.
    + exact (H4 Hsup Hoff).
  - intros Hsup Hoff. destruct Hk as [(-> & Hp) | (-> & Hp)]; simpl in *.
    + destruct (H5 Hsup Hoff) as [Hm Hpt]. auto.
    + auto.
Qed.

Lemma reachable_precedence_inv tests enableds el ops :
  let m := eventMatrix tests enableds in
  let w := run m (new_Tap m el) ops in
  precedence (supported tests enableds) (active (this w)) (registered (this w)).
Proof.
  cbv zeta.
  apply (run_invariant tests enableds
           (fun w => precedence (supported tests enableds)
                       (active (this w)) (registered (this w)))).
  - intros w o Hatt Hp.
    destruct (step_cases tests enableds w o Hatt)
      as [(_ & -> & -> & _)
         | [(e & k & h & _ & _ & Ha & -> & -> & _)
           | (e & k & _ & _ & Ha & Hk & -> & -> & _)]].
    + exact Hp.
    + destruct h; auto using precedence_published.
    + now apply precedence_discarded.
  - apply new_Tap_attached.
  - rewrite new_Tap_spec. apply precedence_initial.
Qed.

(** ** Invariants *)

(** X5.  In every reachable state: only families with
    [test && enabled] are active or registered; the pointer family is
    never deactivated; touch is inactive only after a [touchstart]
    that found pointer registered; mouse is inactive only after a
    [mousedown] that found pointer or touch registered. *)
Theorem reachable_states_respect_precedence
    (tests enableds : Flags) (el : option Target) (ops : list Op) :
  let m := eventMatrix tests enableds in
  let w := run m (new_Tap m el) ops in
  precedence (supported tests enableds) (active (this w)) (registered (this w)).
Proof. exact (reachable_precedence_inv tests enableds el ops). Qed.

Lemma precedence_registered_active sup a r :
  precedence sup a r ->
  (exists k, get_flag r k = true) ->
  exists k, get_flag r k = true /\ get_flag a k = true.
Proof.
  unfold precedence. intros (H1 & H2 & H3 & H4 & H5) [k Hk].
  assert (Hpointer : pointer r = true ->
                     exists k, get_flag r k = true /\ get_flag a k = true).
  { intros Hp. exists EventTypes.pointer. split; [exact Hp|]. simpl.
    rewrite H3. exact (H2 EventTypes.pointer Hp). }
  assert (Htouch : touch r = true ->
                   exists k, get_flag r k = true /\ get_flag a k = true).
  { intros Ht. destruct (touch a) eqn:Ha.
    - exists EventTypes.touch. auto.
    - apply Hpointer. exact (proj2 (H4 (H2 EventTypes.touch Ht) eq_refl)). }
  destruct k; simpl in Hk; auto.
  destruct (mouse a) eqn:Ha.
  - exists EventTypes.mouse. auto.
  - destruct (H5 (H2 EventTypes.mouse Hk) eq_refl) as [_ [Hp | Ht]]; auto.
Qed.

Lemma reachable_isDown_registered tests enableds el ops :
  let m := eventMatrix tests enableds in
  let w := run m (new_Tap m el) ops in
  _isDown (this w) = true -> exists k, get_flag (registered (this w)) k = true.
Proof.
  cbv zeta.
  apply (run_invariant tests enableds
           (fun w => _isDown (this w) = true ->
                     exists k, get_flag (registered (this w)) k = true)).
  - intros w o Hatt Hp.
    destruct (step_cases tests enableds w o Hatt)
      as [(-> & _ & -> & _)
         | [(e & k & h & _ & _ & Ha & _ & -> & -> & _)
           | (e & k & _ & _ & Ha & Hk & _ & -> & -> & _)]].
    + exact Hp.
    + destruct h; auto; [|discriminate].
      intros _. exists k. now destruct k.
    + intros _. exists k. now destruct k.
  - apply new_Tap_attached.
  - rewrite new_Tap_spec. discriminate.
Qed.

(** X6.  Whenever [isDown] is true in a reachable state, some family
    that has registered a down event is still active, so an up event
    can still arrive and clear the flag. *)
Theorem isDown_has_an_active_registered_family
    (tests enableds : Flags) (el : option Target) (ops : list Op) :
  let m := eventMatrix tests enableds in
  let w := run m (new_Tap m el) ops in
  _isDown (this w) = true ->
  exists k, get_flag (registered (this w)) k = true /\
            get_flag (active (this w)) k = true.
Proof.
  intros m w Hd.
  apply (precedence_registered_active (supported tests enableds)).
  - apply reachable_precedence_inv.
  - now apply reachable_isDown_registered.
Qed.

Lemma isDown_has_an_active_registered_family_witness :
  let m := eventMatrix all_families all_families in
  let w := run m (new_Tap m (Some (element 0)))
             [Fire (touch_event "touchstart" 10 20);
              Fire (pointer_event "pointerdown" 10 20);
              Fire (touch_event "touchstart" 11 20)] in
  _isDown (this w) = true /\
  touch (active (this w)) = false /\
  exists k, get_flag (registered (this w)) k = true /\
            get_flag (active (this w)) k = true.
Proof.
  split; [reflexivity|]. split; [reflexivity|].
  apply (isDown_has_an_active_registered_family all_families all_families
           (Some (element 0))
           [Fire (touch_event "touchstart" 10 20);
            Fire (pointer_event "pointerdown" 10 20);
            Fire (touch_event "touchstart" 11 20)]).
  reflexivity.
Defined.

Lemma set__position_current p t : _currentPosition (set__position p t) = p.
Proof.
  unfold set__position.
  destruct (strict_eq_spec (x p) (x (_currentPosition t))) as [Hx|Hx];
    destruct (loose_eq_spec (y p) (y (_currentPosition t))) as [Hy|Hy];
    simpl; auto.
  destruct p, (_currentPosition t); simpl in *; congruence.
Qed.

Lemma set__position_apart p t :
  positions_apart (_currentPosition t) (_lastPosition t) ->
  positions_apart (_currentPosition (set__position p t))
                  (_lastPosition (set__position p t)).
Proof.
  unfold set__position.
  destruct (strict_eq_spec (x p) (x (_currentPosition t))) as [Hx|Hx];
    destruct (loose_eq_spec (y p) (y (_currentPosition t))) as [Hy|Hy];
    simpl; auto; intros _; right; congruence.
Qed.

(** X7.  In every reachable state [lastPosition] and [currentPosition]
    differ, unless no position has been recorded yet and both are
    still (-1, -1). *)
Theorem reachable_positions_apart
    (tests enableds : Flags) (el : option Target) (ops : list Op) :
  let m := eventMatrix tests enableds in
  let w := run m (new_Tap m el) ops in
  positions_apart (_currentPosition (this w)) (_lastPosition (this w)).
Proof.
  cbv zeta.
  apply (run_invariant tests enableds
           (fun w => positions_apart (_currentPosition (this w))
                                     (_lastPosition (this w)))).
  - intros w o Hatt Hp.
    destruct (step_cases tests enableds w o Hatt)
      as [(_ & _ & _ & -> & ->)
         | [(e & k & h & _ & _ & _ & _ & _ & _ & -> & ->)
           | (e & k & _ & _ & _ & _ & _ & _ & _ & -> & ->)]];
      auto using set__position_apart.
  - apply new_Tap_attached.
  - rewrite new_Tap_spec. left. split; reflexivity.
Qed.

(** ** Move and up *)

Lemma outputs_of_ext {A B : Type} (c1 : M A) (c2 : M B) w :
  exec c1 w = exec c2 w -> outputs_of c1 w = outputs_of c2 w.
Proof. unfold outputs_of. now intros ->. Qed.

(** X8.  A move or an up from an active family is never discarded,
    whatever has been registered: a move publishes exactly one [move]
    with [dragging] equal to [isDown] and leaves [isDown] alone; an up
    publishes exactly one [up] and leaves [isDown] false. *)
Theorem move_and_up_always_publish
    (tests enableds : Flags) (el : option Target) (ops : list Op)
    (k : EventTypes.t) (e : DomEvent) :
  let m := eventMatrix tests enableds in
  let w := run m (new_Tap m el) ops in
  get_flag (active (this w)) k = true ->
  (type e = move (family_events k) ->
   outputs_of (dispatchEvent m e) w
   = emit_outputs (this w) "move"
       {| position := calc e w; event := e; dragging := Some (_isDown (this w)) |} /\
   _isDown (this (step m w (Fire e))) = _isDown (this w)) /\
  (type e = up (family_events k) ->
   outputs_of (dispatchEvent m e) w
   = emit_outputs (this w) "up"
       {| position := calc e w; event := e; dragging := None |} /\
   _isDown (this (step m w (Fire e))) = false).
Proof.
  intros m w Ha. subst m.
  assert (Hatt : attached w) by apply reachable_attached.
  split; intros E.
  - assert (Hs : step (eventMatrix tests enableds) w (Fire e) = exec (_onMove e) w).
    { rewrite step_Fire by exact Hatt. rewrite E.
      now rewrite (proj1 (proj2 (handler_of_family k))), Ha. }
    split.
    + rewrite (outputs_of_ext (dispatchEvent (eventMatrix tests enableds) e)
                 (call_handler (eventMatrix tests enableds) onMove e) w Hs).
      now rewrite call_handler_outputs.
    + rewrite Hs. apply _onMove_keeps.
  - assert (Hs : step (eventMatrix tests enableds) w (Fire e) = exec (_onUp e) w).
    { rewrite step_Fire by exact Hatt. rewrite E.
      now rewrite (proj2 (proj2 (handler_of_family k))), Ha. }
    split.
    + rewrite (outputs_of_ext (dispatchEvent (eventMatrix tests enableds) e)
                 (call_handler (eventMatrix tests enableds) onUp e) w Hs).
      now rewrite call_handler_outputs.
    + rewrite Hs, _onUp_spec. simpl.
      now destruct (set__position_frame (calc e w) (set_isDown false (this w)))
        as (_ & _ & -> & _).
Qed.

Lemma move_and_up_always_publish_witness :
  let m := eventMatrix all_families all_families in
  let w := run m (new_Tap m (Some (element 0)))
             [Fire (pointer_event "pointerdown" 10 20)] in
  let e := touch_event "touchmove" 30 40 in
  get_flag (active (this w)) EventTypes.touch = true /\
  outputs_of (dispatchEvent m e) w
  = emit_outputs (this w) "move"
      {| position := calc e w; event := e; dragging := Some (_isDown (this w)) |} /\
  _isDown (this (step m w (Fire e))) = _isDown (this w).
Proof.
  split; [reflexivity|].
  apply (move_and_up_always_publish all_families all_families (Some (element 0))
           [Fire (pointer_event "pointerdown" 10 20)] EventTypes.touch
           (touch_event "touchmove" 30 40)); reflexivity.
Defined.

(** ** Position *)

Lemma handler_outputs_Emitted matrix h e w key data :
  In (Emitted key data) (handler_outputs matrix h e w) ->
  position data = calc e w /\
  (h = onDown -> fst (_removeDuplicates matrix e w) = true) /\
  key = match h with onDown => "down" | onMove => "move" | onUp => "up" end.
Proof.
  unfold handler_outputs.
  destruct h; [destruct (fst _); [|intros []] | |];
    intros H; apply emit_outputs_Emitted in H as [-> ->];
    repeat split; auto; discriminate.
Qed.

Lemma call_handler_current tests enableds h e w key data :
  let m := eventMatrix tests enableds in
  In (Emitted key data) (handler_outputs m h e w) ->
  _currentPosition (this (exec (call_handler m h e) w)) = calc e w.
Proof.
  cbv zeta. intros H. apply handler_outputs_Emitted in H as (_ & Hp & _).
  destruct h; cbn [call_handler].
  - destruct (_onDown_cases tests enableds e w) as [(_ & ->) | (Hf & _)];
      [|rewrite Hp in Hf; [discriminate | reflexivity]].
    simpl. apply set__position_current.
  - rewrite _onMove_spec. simpl. apply set__position_current.
  - rewrite _onUp_spec. simpl. apply set__position_current.
Qed.

(** X9.  Whenever an ingestion publishes, [currentPosition] afterwards
    is the published position. *)
Theorem published_position_is_currentPosition
    (tests enableds : Flags) (h : Handler) (e : DomEvent) (w : World)
    (key : string) (data : TapEvent) :
  let m := eventMatrix tests enableds in
  In (Emitted key data) (outputs_of (call_handler m h e) w) ->
  _currentPosition (this (exec (call_handler m h e) w)) = position data.
Proof.
  cbv zeta. rewrite call_handler_outputs. intros H.
  rewrite (call_handler_current tests enableds h e w key data H).
  apply handler_outputs_Emitted in H as (-> & _). reflexivity.
Qed.

Lemma published_position_is_currentPosition_witness :
  let m := eventMatrix mouse_only all_families in
  let w := new_Tap m (Some (element 0)) in
  let e := mouse_event "mousedown" 10 20 in
  let data := {| position := {| x := num 10; y := num 20 |}; event := e;
                 dragging := None |} in
  In (Emitted "down" data) (outputs_of (call_handler m onDown e) w) /\
  _currentPosition (this (exec (call_handler m onDown e) w)) = position data.
Proof.
  intros m w e data.
  assert (H : In (Emitted "down" data) (outputs_of (call_handler m onDown e) w))
    by (vm_compute; left; reflexivity).
  split; [exact H|].
  exact (published_position_is_currentPosition mouse_only all_families onDown
           e w "down" data H).
Defined.

Lemma set__position_same t :
  set__position {| x := x (_currentPosition t); y := y (_currentPosition t) |} t = t.
Proof.
  unfold set__position. simpl.
  destruct (strict_eq_spec (x (_currentPosition t)) (x (_currentPosition t)));
    destruct (loose_eq_spec (y (_currentPosition t)) (y (_currentPosition t)));
    simpl; congruence.
Qed.

(** X10.  With pointer lock off, an event with no touch point (the
    list absent or empty, as on the [touchend] of the last finger) and
    no [clientX] is given the current position, and ingesting it
    leaves [currentPosition] and [lastPosition] as they were. *)
Theorem event_without_coordinates_keeps_position
    (tests enableds : Flags) (h : Handler) (e : DomEvent) (w : World) :
  let m := eventMatrix tests enableds in
  let w' := exec (call_handler m h e) w in
  pointerLockElement w = false ->
  touches e = None \/ touches e = Some [] ->
  clientX e = undefined ->
  calc e w = _currentPosition (this w) /\
  _currentPosition (this w') = _currentPosition (this w) /\
  _lastPosition (this w') = _lastPosition (this w).
Proof.
  intros m w' Hl Ht Hx. subst m w'.
  assert (Hc : calc e w = {| x := x (_currentPosition (this w));
                             y := y (_currentPosition (this w)) |}).
  { rewrite calc_unlocked by exact Hl. rewrite Hx.
    destruct Ht as [-> | ->]; reflexivity. }
  split; [rewrite Hc; now destruct (_currentPosition (this w))|].
  pose proof (register_frame e (this w)) as (_ & _ & _ & _ & _ & Hrc & Hrl).
  destruct h; cbn [call_handler].
  - destruct (_onDown_cases tests enableds e w) as [(_ & ->) | (_ & k & -> & _)].
    + simpl.
      destruct (set__position_ext (calc e w) (set_isDown true (register e (this w)))
                  (this w) Hrc Hrl) as [-> ->].
      rewrite Hc, set__position_same. auto.
    + rewrite (proj1 (detach_spec tests enableds k (with_this (register e) w))).
      simpl. auto.
  - rewrite _onMove_spec. simpl. rewrite Hc, set__position_same. auto.
  - rewrite _onUp_spec. simpl.
    destruct (set__position_ext (calc e w) (set_isDown false (this w)) (this w)
                eq_refl eq_refl) as [-> ->].
    rewrite Hc, set__position_same. auto.
Qed.

Lemma event_without_coordinates_keeps_position_witness :
  let m := eventMatrix all_families all_families in
  let w := run m (new_Tap m (Some (element 0)))
             [Fire (touch_event "touchstart" 10 20)] in
  let e := {| type := "touchend"; touches := Some [];
              clientX := undefined; clientY := undefined;
              movementX := undefined; movementY := undefined |} in
  let w' := exec (call_handler m onUp e) w in
  calc e w = {| x := num 10; y := num 20 |} /\
  calc e w = _currentPosition (this w) /\
  _currentPosition (this w') = _currentPosition (this w) /\
  _lastPosition (this w') = _lastPosition (this w).
Proof.
  split; [reflexivity|].
  apply (event_without_coordinates_keeps_position all_families all_families onUp);
    [reflexivity | right; reflexivity | reflexivity].
Defined.

(** X11.  With pointer lock off and a [clientX] other than 0, every
    payload published or handed to a callback carries the position
    the specification describes: the first touch point's page
    coordinates, else the client coordinates, else the current
    position. *)
Theorem unlocked_position_off_zero
    (tests enableds : Flags) (h : Handler) (e : DomEvent) (w : World)
    (o : Output) (p : Position) :
  let m := eventMatrix tests enableds in
  pointerLockElement w = false ->
  clientX e <> num 0 ->
  In o (outputs_of (call_handler m h e) w) ->
  payload_position o = Some p ->
  p = claimed_position e (_currentPosition (this w)).
Proof.
  cbv zeta. intros Hl Hx Hin Hp.
  rewrite <- (calc_unlocked_as_claimed e w Hl Hx).
  rewrite call_handler_outputs in Hin. unfold handler_outputs in Hin.
  destruct h; [destruct (fst _); [|contradiction] | |];
    now rewrite (emit_outputs_position _ _ _ _ _ Hin Hp).
Qed.

Lemma unlocked_position_off_zero_witness :
  let m := eventMatrix all_families all_families in
  let w := new_Tap m (Some (element 0)) in
  let e := {| type := "touchstart";
              touches := Some [ {| pageX := 7; pageY := 9 |};
                                {| pageX := 70; pageY := 90 |} ];
              clientX := num 1; clientY := num 2;
              movementX := undefined; movementY := undefined |} in
  let o := Emitted "down" {| position := {| x := num 7; y := num 9 |};
                             event := e; dragging := None |} in
  In o (outputs_of (call_handler m onDown e) w) /\
  {| x := num 7; y := num 9 |} = claimed_position e (_currentPosition (this w)).
Proof.
  intros m w e o.
  assert (H : In o (outputs_of (call_handler m onDown e) w))
    by (vm_compute; left; reflexivity).
  split; [exact H|].
  refine (unlocked_position_off_zero all_families all_families onDown e w o
            {| x := num 7; y := num 9 |} _ _ H _);
    [reflexivity | discriminate | reflexivity].
Defined.

(** ** Pointer lock *)

Lemma fold_settle_complete ls : forall s q,
  In q s \/ In (resolve q) ls -> In q (fold_left settle ls s).
Proof.
  induction ls as [|[p] ls IH]; intros s q H; simpl.
  - destruct H as [H | []]; exact H.
  - apply IH. destruct H as [H | [H | H]]; auto.
    + left. destruct (existsb (Nat.eqb p) s); simpl; auto.
    + inversion H; subst. left.
      destruct (existsb (Nat.eqb q) s) eqn:E; simpl; auto.
      apply existsb_exists in E as (q' & Hq' & Heq).
      apply Nat.eqb_eq in Heq. now subst.
Qed.

Lemma step_will_settle tests enableds w o p :
  attached w -> will_settle p w -> will_settle p (step (eventMatrix tests enableds) w o).
Proof.
  intros Hatt H. unfold will_settle in *.
  destruct o; try exact H; try (destruct h; exact H).
  - rewrite step_Fire by exact Hatt.
    destruct (handler_of (type e)) as [[k h]|]; [|exact H].
    destruct (get_flag (active (this w)) k); [|exact H].
    now destruct (call_handler_frame tests enableds h e w) as (-> & _ & -> & _).
  - unfold step. cbn [perform]. rewrite pointerlockchange_spec. simpl.
    right. apply fold_settle_complete. tauto.
  - lock_call w; [exact H|]. destruct H as [H | H]; auto using in_or_app.
  - lock_call w; [|exact H]. destruct H as [H | H]; auto using in_or_app.
Qed.

Lemma will_settle_at_pointerlockchange tests enableds p ops b : forall w,
  attached w -> will_settle p w ->
  In p (settled (step (eventMatrix tests enableds)
                   (run (eventMatrix tests enableds) w ops) (LockChange b))).
Proof.
  intros w Hatt H.
  assert (H' : will_settle p (run (eventMatrix tests enableds) w ops)).
  { revert H. apply (run_invariant tests enableds (will_settle p)); auto.
    intros w0 o Hatt0. now apply step_will_settle. }
  unfold step. cbn [perform]. rewrite pointerlockchange_spec. simpl.
  apply fold_settle_complete. unfold will_settle in H'. tauto.
Qed.

Lemma reachable_promises_wf tests enableds el ops :
  promises_wf (run (eventMatrix tests enableds)
                 (new_Tap (eventMatrix tests enableds) el) ops).
Proof.
  apply run_promises_wf; [apply new_Tap_attached | apply new_Tap_promises_wf].
Qed.

(** X13.  [pointerLock.request()] while the lock is not engaged
    outputs nothing yet; it adds one [pointerlockchange] listener and
    one [once.down] subscriber.  The promise is pending, and it is
    settled by the next [pointerlockchange], whatever happens before
    it and whether or not that event reports the lock as engaged. *)
Theorem request_settles_at_next_pointerlockchange
    (tests enableds : Flags) (el : option Target) (ops : list Op) :
  let m := eventMatrix tests enableds in
  let w := run m (new_Tap m el) ops in
  let p := fst (pointerLock_request w) in
  let w1 := snd (pointerLock_request w) in
  pointerLockElement w = false ->
  doc_listeners w1 = doc_listeners w ++ [resolve p] /\
  _events (this w1)
  = _events (this w)
    ++ [ {| l_event := "down"; l_once := true; l_fn := once_closure requestLock |} ] /\
  trace w1 = trace w /\
  ~ In p (settled w1) /\
  forall later b, In p (settled (step m (run m w1 later) (LockChange b))).
Proof.
  intros m w p w1 Hl. subst m p w1.
  unfold pointerLock_request, bind, new_Promise, isLocked. simpl. rewrite Hl. simpl.
  repeat split.
  - intros H. pose proof (reachable_promises_wf tests enableds el ops) as Hwf.
    specialize (Hwf (next_promise w) (or_introl H)). fold w in Hwf. lia.
  - intros later b. apply will_settle_at_pointerlockchange.
    + exact (reachable_attached tests enableds el ops).
    + left. simpl. apply in_or_app. right. left. reflexivity.
Qed.

Lemma request_settles_at_next_pointerlockchange_witness :
  let m := eventMatrix all_families all_families in
  let w := new_Tap m (Some (element 0)) in
  let p := fst (pointerLock_request w) in
  let w1 := snd (pointerLock_request w) in
  doc_listeners w1 = doc_listeners w ++ [resolve p] /\
  _events (this w1)
  = _events (this w)
    ++ [ {| l_event := "down"; l_once := true; l_fn := once_closure requestLock |} ] /\
  trace w1 = trace w /\
  ~ In p (settled w1) /\
  forall later b, In p (settled (step m (run m w1 later) (LockChange b))).
Proof.
  apply (request_settles_at_next_pointerlockchange all_families all_families
           (Some (element 0)) []).
  reflexivity.
Defined.

(** X15.  [pointerLock.exit()] while the lock is engaged calls
    [document.exitPointerLock()] at once, adds one [pointerlockchange]
    listener and leaves the instance alone; the promise is pending and
    is settled by the next [pointerlockchange]. *)
Theorem exit_settles_at_next_pointerlockchange
    (tests enableds : Flags) (el : option Target) (ops : list Op) :
  let m := eventMatrix tests enableds in
  let w := run m (new_Tap m el) ops in
  let p := fst (pointerLock_exit w) in
  let w1 := snd (pointerLock_exit w) in
  pointerLockElement w = true ->
  trace w1 = trace w ++ [ExitPointerLock] /\
  doc_listeners w1 = doc_listeners w ++ [resolve p] /\
  this w1 = this w /\
  ~ In p (settled w1) /\
  forall later b, In p (settled (step m (run m w1 later) (LockChange b))).
Proof.
  intros m w p w1 Hl. subst m p w1.
  unfold pointerLock_exit, bind, new_Promise, isLocked. simpl. rewrite Hl. simpl.
  repeat split.
  - intros H. pose proof (reachable_promises_wf tests enableds el ops) as Hwf.
    specialize (Hwf (next_promise w) (or_introl H)). fold w in Hwf. lia.
  - intros later b. apply will_settle_at_pointerlockchange.
    + exact (reachable_attached tests enableds el ops).
    + left. simpl. apply in_or_app. right. left. reflexivity.
Qed.

Lemma exit_settles_at_next_pointerlockchange_witness :
  let m := eventMatrix all_families all_families in
  let w := run m (new_Tap m (Some (element 0))) [LockChange true] in
  let p := fst (pointerLock_exit w) in
  let w1 := snd (pointerLock_exit w) in
  trace w1 = trace w ++ [ExitPointerLock] /\
  doc_listeners w1 = doc_listeners w ++ [resolve p] /\
  this w1 = this w /\
  ~ In p (settled w1) /\
  forall later b, In p (settled (step m (run m w1 later) (LockChange b))).
Proof.
  apply (exit_settles_at_next_pointerlockchange all_families all_families
           (Some (element 0)) [LockChange true]).
  reflexivity.
Defined.

(** ** Teardown *)

Lemma _remove_frame tests enableds k w :
  let w' := exec (_remove (eventMatrix tests enableds) k) w in
  doc_listeners w' = doc_listeners w /\
  pointerLockElement w' = pointerLockElement w /\
  settled w' = settled w /\
  next_promise w' = next_promise w /\
  trace w' = trace w.
Proof.
  cbv zeta. rewrite _remove_exec.
  destruct (get_flag (active (this w)) k); [|repeat split].
  destruct (detach_spec tests enableds k w) as (_ & -> & -> & -> & -> & ->).
  repeat split.
Qed.

(** X16.  [destroy()] on any reachable instance leaves none of its
    listeners on the target element and publishes nothing.  It does
    not touch the document: a [pointerlockchange] listener installed
    by a pending [request()] or [exit()] stays in place, and the
    promises settled so far stay settled. *)
Theorem destroy_detaches_every_listener
    (tests enableds : Flags) (el : option Target) (ops : list Op) :
  let m := eventMatrix tests enableds in
  let w := run m (new_Tap m el) ops in
  let page := destroy m w in
  page_el_listeners page = [] /\
  page_trace page = trace w /\
  page_doc_listeners page = doc_listeners w /\
  page_settled page = settled w /\
  page_pointerLockElement page = pointerLockElement w /\
  page_next_promise page = next_promise w.
Proof.
  intros m w page. subst m page. unfold destroy. cbv zeta.
  assert (Hatt : attached w) by apply reachable_attached.
  set (w0 := exec pause w).
  set (w1 := exec (_remove (eventMatrix tests enableds) EventTypes.touch) w0).
  set (w2 := exec (_remove (eventMatrix tests enableds) EventTypes.mouse) w1).
  set (w3 := exec (_remove (eventMatrix tests enableds) EventTypes.pointer) w2).
  assert (Hexec : exec (pause ;;
                        forEach [EventTypes.touch; EventTypes.mouse; EventTypes.pointer]
                          (fun key => _remove (eventMatrix tests enableds) key) ;;
                        Events_removeAllListeners) w
                  = with_this (set_events []) w3) by reflexivity.
  rewrite Hexec. simpl.
  assert (Hatt0 : attached w0) by exact Hatt.
  pose proof (_remove_attached tests enableds EventTypes.touch w0 Hatt0) as Hatt1.
  pose proof (_remove_attached tests enableds EventTypes.mouse w1 Hatt1) as Hatt2.
  pose proof (_remove_attached tests enableds EventTypes.pointer w2 Hatt2) as Hatt3.
  fold w1 in Hatt1. fold w2 in Hatt2. fold w3 in Hatt3.
  destruct (_remove_frame tests enableds EventTypes.touch w0) as (D1 & L1 & S1 & N1 & T1).
  destruct (_remove_frame tests enableds EventTypes.mouse w1) as (D2 & L2 & S2 & N2 & T2).
  destruct (_remove_frame tests enableds EventTypes.pointer w2)
    as (D3 & L3 & S3 & N3 & T3).
  fold w1 in D1, L1, S1, N1, T1. fold w2 in D2, L2, S2, N2, T2.
  fold w3 in D3, L3, S3, N3, T3.
  assert (D0 : doc_listeners w0 = doc_listeners w) by reflexivity.
  assert (L0 : pointerLockElement w0 = pointerLockElement w) by reflexivity.
  assert (S0 : settled w0 = settled w) by reflexivity.
  assert (N0 : next_promise w0 = next_promise w) by reflexivity.
  assert (T0 : trace w0 = trace w) by reflexivity.
  split; [|repeat split; congruence].
  rewrite Hatt3. unfold w3, w2, w1. rewrite !_remove_active.
  now destruct (active (this w0)).
Qed.

(** ** Down *)

(** X17.  A down event of an active family that is not discarded
    publishes exactly one [down] carrying the computed position, sets
    [isDown], registers its family and deactivates nothing. *)
Theorem down_that_proceeds_publishes
    (tests enableds : Flags) (el : option Target) (ops : list Op)
    (k : EventTypes.t) (e : DomEvent) :
  let m := eventMatrix tests enableds in
  let w := run m (new_Tap m el) ops in
  let w' := step m w (Fire e) in
  get_flag (active (this w)) k = true ->
  type e = down (family_events k) ->
  fst (_removeDuplicates m e w) = true ->
  outputs_of (dispatchEvent m e) w
  = emit_outputs (this w) "down"
      {| position := calc e w; event := e; dragging := None |} /\
  _isDown (this w') = true /\
  registered (this w') = set_flag k true (registered (this w)) /\
  active (this w') = active (this w).
Proof.
  intros m w w' Ha E Hp. subst m w'.
  assert (Hatt : attached w) by apply reachable_attached.
  assert (Hs : step (eventMatrix tests enableds) w (Fire e)
               = exec (_onDown (eventMatrix tests enableds) e) w).
  { rewrite step_Fire by exact Hatt. rewrite E.
    now rewrite (proj1 (handler_of_family k)), Ha. }
  split.
  - rewrite (outputs_of_ext (dispatchEvent (eventMatrix tests enableds) e)
               (call_handler (eventMatrix tests enableds) onDown e) w Hs).
    rewrite call_handler_outputs. unfold handler_outputs. now rewrite Hp.
  - rewrite Hs.
    destruct (_onDown_cases tests enableds e w) as [(_ & ->) | (Hf & _)];
      [|congruence].
    simpl.
    destruct (set__position_frame (calc e w) (set_isDown true (register e (this w))))
      as (_ & _ & -> & _ & -> & ->).
    simpl. rewrite (register_down e k _ E). repeat split.
Qed.

Lemma down_that_proceeds_publishes_witness :
  let m := eventMatrix all_families all_families in
  let w := run m (new_Tap m (Some (element 0)))
             [Fire (touch_event "touchstart" 10 20)] in
  let e := pointer_event "pointerdown" 10 20 in
  let w' := step m w (Fire e) in
  outputs_of (dispatchEvent m e) w
  = emit_outputs (this w) "down"
      {| position := calc e w; event := e; dragging := None |} /\
  _isDown (this w') = true /\
  registered (this w') = set_flag EventTypes.pointer true (registered (this w)) /\
  active (this w') = active (this w).
Proof.
  apply (down_that_proceeds_publishes all_families all_families (Some (element 0))
           [Fire (touch_event "touchstart" 10 20)] EventTypes.pointer
           (pointer_event "pointerdown" 10 20)); reflexivity.
Defined.

(* ------------------------------------------------------------------ *)
(** * Subscribers, pause and the callbacks' own calls *)

(** ** The loop of [emit] *)

Lemma callback_outputs_Called el fn c data :
  In (Called fn data) (callback_outputs el fn c data).
Proof. destruct c; [| destruct el |]; simpl; auto. Qed.

Lemma after_calls_without r calls :
  existsb (Reentry_eqb r) calls = false ->
  after_calls calls (match r with call_pause => false | call_resume => true end)
  = match r with call_pause => false | call_resume => true end.
Proof.
  unfold after_calls.
  induction calls as [|r' calls IH]; simpl; auto.
  intros H. apply orb_false_iff in H as [Hr H].
  destruct r, r'; simpl in *; try discriminate; auto.
Qed.

Lemma callback_paused_without r c :
  makes_call r c = false ->
  callback_paused c (match r with call_pause => false | call_resume => true end)
  = match r with call_pause => false | call_resume => true end.
Proof. destruct c; simpl; auto. apply after_calls_without. Qed.



(** While the flag is clear and no callback sets it or throws, every
    [on] subscriber is called. *)
Lemma emit_each_pure_on el data subscribed : forall ev l c,
  (forall l0, In l0 subscribed ->
              makes_call call_pause (callback_of (l_fn l0)) = false /\
              callback_returns el (callback_of (l_fn l0)) = true) ->
  In l subscribed -> l_fn l = on_closure c ->
  In (Called (on_closure c) data)
     (fst (emit_each_pure el data subscribed false ev)).
Proof.
  induction subscribed as [|l0 rest IH]; intros ev l c Hok Hin Hfn;
    [contradiction|].
  simpl. destruct (Hok l0 (in_eq _ _)) as [Hp Hr]. rewrite Hr.
  assert (Hrest : forall l1, In l1 rest ->
                    makes_call call_pause (callback_of (l_fn l1)) = false /\
                    callback_returns el (callback_of (l_fn l1)) = true)
    by (intros l1 H1; apply Hok; now right).
  pose proof (callback_paused_without call_pause _ Hp) as Hp'. simpl in Hp'.
  assert (Hcalls : closure_calls false (l_fn l0) = true) by now destruct (l_fn l0).
  rewrite Hcalls, Hp'. simpl. apply in_or_app.
  destruct Hin as [-> | Hin].
  - left. rewrite Hfn. apply callback_outputs_Called.
  - right. eauto.
Qed.



Lemma Listener_eqb_true a b :
  Listener_eqb a b = true -> l_event a = l_event b /\ l_once a = l_once b.
Proof.
  unfold Listener_eqb. intros H.
  apply andb_true_iff in H as [H _]. apply andb_true_iff in H as [He Ho].
  apply String.eqb_eq in He. apply Bool.eqb_prop in Ho. auto.
Qed.

Lemma remove_first_In_other l0 l ev :
  In l ev -> Listener_eqb l0 l = false -> In l (remove_first l0 ev).
Proof.
  induction ev as [|l' ev IH]; simpl; [auto|].
  intros [-> | Hin] Hne.
  - rewrite Hne. now left.
  - destruct (Listener_eqb l0 l'); [exact Hin | right; auto].
Qed.

(** The loop takes out only [once] subscribers among those it was
    given. *)
Lemma emit_each_pure_keeps el data subscribed : forall paused ev l,
  In l ev ->
  (forall l0, In l0 subscribed -> l_once l0 = true -> Listener_eqb l0 l = false) ->
  In l (snd (snd (emit_each_pure el data subscribed paused ev))).
Proof.
  induction subscribed as [|l0 rest IH]; intros paused ev l Hin Hne; simpl; auto.
  assert (Hin1 : In l (if l_once l0 then remove_first l0 ev else ev)).
  { destruct (l_once l0) eqn:Ho; auto.
    apply remove_first_In_other; auto. apply Hne; [now left | exact Ho]. }
  assert (Hrest : forall l1, In l1 rest -> l_once l1 = true ->
                             Listener_eqb l1 l = false)
    by (intros l1 H1; apply Hne; now right).
  destruct (closure_calls paused (l_fn l0)); [|auto].
  destruct (callback_returns el (callback_of (l_fn l0))); simpl; auto.
Qed.

Lemma emit_pure_keeps t key data l :
  In l (_events t) ->
  l_once l = false \/ l_event l <> key ->
  In l (snd (snd (emit_pure t key data))).
Proof.
  intros Hin Hl. unfold emit_pure. apply emit_each_pure_keeps; auto.
  intros l0 H0 Ho. apply filter_In in H0 as [_ Hk]. apply String.eqb_eq in Hk.
  destruct (Listener_eqb l0 l) eqn:E; auto.
  apply Listener_eqb_true in E as [He Hon]. destruct Hl as [Hl | Hl]; congruence.
Qed.

(** ** Handlers and steps *)

Lemma handler_of_event_name h k : handler_of (event_name h k) = Some (k, h).
Proof. destruct h, k; reflexivity. Qed.

Lemma handler_outputs_alt matrix h e w :
  handler_outputs matrix h e w
  = if proceeds matrix h e w
    then emit_outputs (this w) (key_of h) (payload h e w)
    else [].
Proof. destruct h; reflexivity. Qed.

Lemma emit_pure_ext t1 t2 key data :
  _events t1 = _events t2 -> _isPaused t1 = _isPaused t2 ->
  domElement t1 = domElement t2 ->
  emit_pure t1 key data = emit_pure t2 key data.
Proof. unfold emit_pure; now intros -> -> ->. Qed.

(** A dispatched event of an active family runs its handler. *)
Lemma step_Fire_active tests enableds w k h e :
  attached w -> get_flag (active (this w)) k = true -> type e = event_name h k ->
  step (eventMatrix tests enableds) w (Fire e)
  = exec (call_handler (eventMatrix tests enableds) h e) w.
Proof.
  intros Hatt Ha E. rewrite step_Fire by exact Hatt.
  now rewrite E, handler_of_event_name, Ha.
Qed.

Lemma dispatch_outputs tests enableds w k h e :
  let m := eventMatrix tests enableds in
  attached w -> get_flag (active (this w)) k = true -> type e = event_name h k ->
  outputs_of (dispatchEvent m e) w = handler_outputs m h e w.
Proof.
  cbv zeta. intros Hatt Ha E.
  rewrite (outputs_of_ext (dispatchEvent (eventMatrix tests enableds) e)
             (call_handler (eventMatrix tests enableds) h e) w
             (step_Fire_active tests enableds w k h e Hatt Ha E)).
  apply call_handler_outputs.
Qed.

(** The instance before [emit] in handler [h]. *)
Lemma call_handler_published tests enableds h e w :
  let m := eventMatrix tests enableds in
  proceeds m h e w = true ->
  exec (call_handler m h e) w
  = publish (key_of h) (payload h e w)
      (with_this (fun t => set__position (calc e w)
                             match h with
                             | onDown => set_isDown true (register e t)
                             | onMove => t
                             | onUp => set_isDown false t
                             end) w).
Proof.
  cbv zeta. intros Hp. destruct h; cbn [call_handler].
  - destruct (_onDown_cases tests enableds e w) as [(_ & ->) | (Hf & _)];
      [reflexivity|]. simpl in Hp. congruence.
  - apply _onMove_spec.
  - apply _onUp_spec.
Qed.

Lemma call_handler_discarded tests enableds e w :
  let m := eventMatrix tests enableds in
  proceeds m onDown e w = false ->
  _events (this (exec (call_handler m onDown e) w)) = _events (this w) /\
  domElement (this (exec (call_handler m onDown e) w)) = domElement (this w).
Proof.
  cbv zeta. intros Hp. cbn [call_handler].
  destruct (_onDown_cases tests enableds e w) as [(Ht & _) | (_ & k & -> & _)].
  - simpl in Hp. congruence.
  - rewrite (proj1 (detach_spec tests enableds k (with_this (register e) w))). simpl.
    now destruct (register_frame e (this w)) as (-> & -> & _).
Qed.

(** What the handler hands to [emit] reads the subscribers, the pause
    flag and the target as they were before the event. *)
Lemma before_emit_same h e p t :
  let t' := set__position p match h with
                            | onDown => set_isDown true (register e t)
                            | onMove => t
                            | onUp => set_isDown false t
                            end in
  _events t' = _events t /\ _isPaused t' = _isPaused t /\
  domElement t' = domElement t.
Proof.
  cbv zeta.
  destruct h;
    match goal with
    | |- context [set__position p ?x] =>
        destruct (set__position_frame p x) as (-> & -> & _ & -> & _)
    end; simpl; auto.
  now destruct (register_frame e t) as (-> & -> & _ & -> & _).
Qed.

Lemma call_handler_events tests enableds h e w :
  let m := eventMatrix tests enableds in
  let w' := exec (call_handler m h e) w in
  proceeds m h e w = true ->
  _events (this w') = snd (snd (emit_pure (this w) (key_of h) (payload h e w))) /\
  _isPaused (this w') = fst (snd (emit_pure (this w) (key_of h) (payload h e w))) /\
  domElement (this w') = domElement (this w).
Proof.
  cbv zeta. intros Hp. rewrite call_handler_published by exact Hp.
  destruct (before_emit_same h e (calc e w) (this w)) as (He & Hi & Hd).
  cbv zeta in He, Hi, Hd. simpl.
  rewrite (emit_pure_ext _ (this w) _ _ He Hi Hd). auto.
Qed.



(** A subscriber stays subscribed over a step, unless it is a [once]
    subscriber and the step publishes under its key. *)
Lemma step_keeps_subscriber tests enableds w o l :
  let m := eventMatrix tests enableds in
  attached w ->
  In l (_events (this w)) ->
  l_once l = false \/ publishes m (l_event l) w o = false ->
  In l (_events (this (step m w o))).
Proof.
  cbv zeta. intros Hatt Hin Hl.
  destruct o; try exact Hin;
    try (simpl; apply in_or_app; now left);
    try (destruct h; simpl; apply in_or_app; now left).
  - unfold publishes in Hl. cbn [perform] in Hl.
    rewrite step_Fire by exact Hatt.
    destruct (handler_of (type e)) as [[k h]|] eqn:Hh; [|exact Hin].
    destruct (get_flag (active (this w)) k) eqn:Ha; [|exact Hin].
    pose proof (handler_of_inv _ _ _ Hh) as Hty.
    assert (E : type e = event_name h k) by (destruct h; exact Hty).
    rewrite (dispatch_outputs tests enableds w k h e Hatt Ha E) in Hl.
    rewrite handler_outputs_alt in Hl.
    destruct (proceeds (eventMatrix tests enableds) h e w) eqn:Hp.
    + rewrite (proj1 (call_handler_events tests enableds h e w Hp)).
      apply emit_pure_keeps; [exact Hin|].
      destruct Hl as [Hl | Hl]; [now left | right].
      unfold emit_outputs in Hl. simpl in Hl.
      apply orb_false_iff in Hl as [Hk _].
      intros Heq. rewrite Heq, String.eqb_refl in Hk. discriminate.
    + destruct h; try discriminate.
      now rewrite (proj1 (call_handler_discarded tests enableds e w Hp)).
  - unfold step. cbn [perform]. now rewrite pointerlockchange_spec.
  - lock_call w; [exact Hin | apply in_or_app; now left].
  - lock_call w; exact Hin.
Qed.


Lemma run_keeps_on_subscriber tests enableds l ops : forall w,
  let m := eventMatrix tests enableds in
  attached w ->
  In l (_events (this w)) -> l_once l = false ->
  In l (_events (this (run m w ops))).
Proof.
  cbv zeta. intros w Hatt Hin Ho.
  apply (run_invariant tests enableds (fun w' => In l (_events (this w')))); auto.
  intros w0 o Hatt0 H0. apply step_keeps_subscriber; auto.
Qed.

Lemma subscribe_on_subscribed matrix h a w :
  In {| l_event := key_of h; l_once := false; l_fn := on_closure (user a) |}
     (_events (this (step matrix w (subscribe_on h a)))).
Proof. destruct h; simpl; apply in_or_app; right; now left. Qed.


Lemma run_snoc matrix w ops o :
  run matrix w (ops ++ [o]) = step matrix (run matrix w ops) o.
Proof. unfold run. now rewrite fold_left_app. Qed.

(** Reading the conditions on the subscribers of a key. *)
Lemma never_calls_spec r key t l :
  never_calls r key t = true -> In l (filter (fun l => l_event l =? key) (_events t)) ->
  makes_call r (callback_of (l_fn l)) = false.
Proof.
  unfold never_calls. intros H Hin. apply filter_In in Hin as [Hin Hk].
  rewrite forallb_forall in H. specialize (H l Hin). rewrite Hk in H. simpl in H.
  now destruct (makes_call r (callback_of (l_fn l))).
Qed.

Lemma never_throws_spec key t l :
  never_throws key t = true -> In l (filter (fun l => l_event l =? key) (_events t)) ->
  callback_returns (domElement t) (callback_of (l_fn l)) = true.
Proof.
  unfold never_throws. intros H Hin. apply filter_In in Hin as [Hin Hk].
  rewrite forallb_forall in H. specialize (H l Hin). now rewrite Hk in H.
Qed.






(** ** Pause *)


(** The [once] half fails too when an earlier subscriber throws: built
    without an element, with a lock request pending, the publication
    ends at the [TypeError] and the callback subscribed afterwards with
    [once.down] is not called. *)
Lemma paused_once_callback_skipped_after_throw :
  let m := eventMatrix mouse_only all_families in
  let w := run m (new_Tap m None) [Request; OnceDown 1; Pause] in
  let e := mouse_event "mousedown" 10 20 in
  let os := outputs_of (dispatchEvent m e) w in
  _isPaused (this w) = true /\
  In TypeError os /\
  forall data, ~ In (Called (once_closure (user 1)) data) os.
Proof.
  split; [reflexivity|]. split; [vm_compute; auto|].
  intros data. vm_compute.
  intros [H | [H | [H | H]]]; try discriminate; contradiction.
Qed.




(** ** Persistent subscribers *)

(** X12.  A callback subscribed with [on.down], [on.move] or [on.up]
    is called, with the published payload, at every later event of
    that kind that is ingested and not discarded while the instance is
    not paused, whatever was done in between, provided no callback
    subscribed to the key calls [pause()] or throws. *)
Theorem on_subscribers_called_when_not_paused
    (tests enableds : Flags) (el : option Target) (ops : list Op)
    (h : Handler) (a : nat) (between : list Op)
    (k : EventTypes.t) (e : DomEvent) :
  let m := eventMatrix tests enableds in
  let w1 := run m (new_Tap m el) (ops ++ [subscribe_on h a]) in
  let w := run m w1 between in
  _isPaused (this w) = false ->
  get_flag (active (this w)) k = true ->
  type e = event_name h k ->
  proceeds m h e w = true ->
  never_calls call_pause (key_of h) (this w) = true ->
  never_throws (key_of h) (this w) = true ->
  In (Called (on_closure (user a)) (payload h e w))
     (outputs_of (dispatchEvent m e) w).
Proof.
  intros m w1 w Hpaused Ha E Hp Hnp Hnt.
  set (w0 := run m (new_Tap m el) ops).
  assert (Hw1 : w1 = step m w0 (subscribe_on h a)).
  { unfold w1, w0, run. rewrite fold_left_app. reflexivity. }
  assert (Hatt0 : attached w0) by apply reachable_attached.
  assert (Hatt1 : attached w1) by (rewrite Hw1; now apply step_attached).
  assert (Hatt : attached w) by now apply run_attached.
  assert (Hon : In {| l_event := key_of h; l_once := false;
                      l_fn := on_closure (user a) |} (_events (this w))).
  { apply run_keeps_on_subscriber; auto. rewrite Hw1.
    apply subscribe_on_subscribed. }
  subst m. rewrite (dispatch_outputs tests enableds w k h e Hatt Ha E).
  rewrite handler_outputs_alt. fold (eventMatrix tests enableds). rewrite Hp.
  right. unfold emit_pure. rewrite Hpaused.
  apply emit_each_pure_on
    with (l := {| l_event := key_of h; l_once := false;
                  l_fn := on_closure (user a) |}); auto.
  - intros l0 H0. split.
    + exact (never_calls_spec _ _ _ l0 Hnp H0).
    + exact (never_throws_spec _ _ l0 Hnt H0).
  - apply filter_In. split; [exact Hon | apply String.eqb_refl].
Qed.

Lemma on_subscribers_called_when_not_paused_witness :
  let m := eventMatrix mouse_only all_families in
  let w h := run m (run m (new_Tap m (Some (element 0)))
                      ([Pause] ++ [subscribe_on h 1]))
               [Fire (mouse_event "mousedown" 1 2); Resume; OnceDown 3] in
  let e h := mouse_event (event_name h EventTypes.mouse) 10 20 in
  let called h :=
    In (Called (on_closure (user 1))
          {| position := {| x := num 10; y := num 20 |}; event := e h;
             dragging := match h with onMove => Some true | _ => None end |})
       (outputs_of (dispatchEvent m (e h)) (w h)) in
  called onDown /\ called onMove /\ called onUp.
Proof.
  cbv zeta. split; [|split].
  - exact (on_subscribers_called_when_not_paused mouse_only all_families
             (Some (element 0)) [Pause] onDown 1
             [Fire (mouse_event "mousedown" 1 2); Resume; OnceDown 3]
             EventTypes.mouse (mouse_event "mousedown" 10 20)
             eq_refl eq_refl eq_refl eq_refl eq_refl eq_refl).
  - exact (on_subscribers_called_when_not_paused mouse_only all_families
             (Some (element 0)) [Pause] onMove 1
             [Fire (mouse_event "mousedown" 1 2); Resume; OnceDown 3]
             EventTypes.mouse (mouse_event "mousemove" 10 20)
             eq_refl eq_refl eq_refl eq_refl eq_refl eq_refl).
  - exact (on_subscribers_called_when_not_paused mouse_only all_families
             (Some (element 0)) [Pause] onUp 1
             [Fire (mouse_event "mousedown" 1 2); Resume; OnceDown 3]
             EventTypes.mouse (mouse_event "mouseup" 10 20)
             eq_refl eq_refl eq_refl eq_refl eq_refl eq_refl).
Defined.

(** ** The pending lock request *)




